(** * numba.core.event: the in-process event bus

    A shallow embedding of [numba/core/event.py] and the properties of its
    guard, registry, listeners, emission functions and scoped installers.

    Python state is threaded explicitly: a computation is a function from a
    [world] to a new world and an outcome, and the new world is kept when the
    outcome is a raised exception (Python does not roll anything back).

    Conventions of the model:
    - listeners are objects on a heap and are referred to by reference, so a
      listener registered twice, or under two kinds, is one shared object;
    - [timer()] and [time.time()] are clock oracles indexed by the number of
      readings made so far; the type of their readings and the subtraction on
      it are parameters, nothing is assumed about float arithmetic;
    - the callbacks of user-defined listeners are arbitrary computations on
      the world: they may raise, change other objects, and register or
      unregister listeners while a broadcast is under way; [UserCallbacks]
      is the special case of callbacks that keep to the listener's own
      object;
    - [broadcast] walks the live list of its kind by index, as a Python
      [for] loop does, so it sees what callbacks do to that list; a loop
      that callbacks keep extending never ends in Python, and is cut off
      here after a number of extra iterations fixed by the listener class;
    - an exception of the model stands for one of a class other than
      [StopIteration]: the conversion of a [StopIteration] that leaves a
      generator frame (that of [mark_event], [install_timer] or
      [install_recorder]) into a [RuntimeError] (PEP 479) is not modelled;
    - the world carries a call log, an instrumentation that never influences
      control flow, in which the emission functions, [Listener.notify] and the
      timer callback record that they were entered. *)

From Stdlib Require Import ZArith String.
From stdpp Require Import base option list sorting gmap strings.

Local Open Scope string_scope.
Local Open Scope list_scope.

(** ** Exceptions and outcomes *)

(** The exceptions the module raises itself, and [Raised cls msg] for the
    others, of a class [cls] other than [StopIteration]. *)
Inductive exn : Type :=
| ValueError (msg : string)
| TypeError (msg : string)
| AttributeError (msg : string)
| AssertionError (msg : string)
| Raised (cls : string) (msg : string).

Definition exn_class (e : exn) : string :=
  match e with
  | ValueError _ => "ValueError"
  | TypeError _ => "TypeError"
  | AttributeError _ => "AttributeError"
  | AssertionError _ => "AssertionError"
  | Raised cls _ => cls
  end.

Inductive traceback : Type :=
| Traceback (of_exn : exn).

(** The 3-tuple handed to [__exit__]: type, value, traceback. *)
Definition exc_triple : Type := option string * option exn * option traceback.

Definition no_exc : exc_triple := (None, None, None).

Definition exc_info (e : exn) : exc_triple :=
  (Some (exn_class e), Some e, Some (Traceback e)).

(** What [ExitStack.__exit__] hands to a callback: [(None, None, None)] when
    no exception is in flight, else the triple of the exception. *)
Definition exc_details_of (exc : option exn) : exc_triple :=
  match exc with
  | None => no_exc
  | Some e => exc_info e
  end.

Inductive result (A : Type) : Type :=
| Ok (a : A)
| Raise (e : exn).

Arguments Ok {A} a.
Arguments Raise {A} e.

(** The exception an outcome carries, if any. *)
Definition failure {A : Type} (r : result A) : option exn :=
  match r with
  | Ok _ => None
  | Raise e => Some e
  end.

(** ** Event status and the kind guard *)

Inductive EventStatus : Type :=
| START
| END.

Definition EventStatus_eqb (a b : EventStatus) : bool :=
  match a, b with
  | START, START | END, END => true
  | _, _ => false
  end.

Definition _builtin_kinds : gset string :=
  {[ "numba:compiler_lock"; "numba:compile" ]}.

Definition invalid_kind_msg (kind : string) : string :=
  kind +:+ " is not a valid event kind".

Definition _guard_kind (kind : string) : result string :=
  if String.prefix "numba:" kind && negb (bool_decide (kind ∈ _builtin_kinds))
  then Raise (ValueError (invalid_kind_msg kind))
  else Ok kind.

(** ** Events *)

Section Event.

Context {payload : Type}.

Record Event : Type := mkEvent {
  _kind : string;
  _status : EventStatus;
  _data : option payload;
  _exc_details : option exc_triple
}.

(** [Event.__init__]: the only failure is the guard's. *)
Definition Event_init (kind : string) (status : EventStatus)
    (data : option payload) (exc_details : option exc_triple) : result Event :=
  match _guard_kind kind with
  | Raise e => Raise e
  | Ok k => Ok (mkEvent k status data exc_details)
  end.

Definition kind (e : Event) : string := _kind e.
Definition status (e : Event) : EventStatus := _status e.
Definition data (e : Event) : option payload := _data e.
Definition is_start (e : Event) : bool := EventStatus_eqb (_status e) START.
Definition is_end (e : Event) : bool := EventStatus_eqb (_status e) END.

Definition not_subscriptable : exn :=
  TypeError "'NoneType' object is not subscriptable".

(** [self._exc_details[0] is None]; subscripting [None] raises. *)
Definition is_failed (e : Event) : result bool :=
  match _exc_details e with
  | None => Raise not_subscriptable
  | Some (ty, _, _) => Ok (bool_decide (ty = None))
  end.

End Event.

Arguments Event payload : clear implicits.

(** ** Interfaces the bus is parameterised by *)

(** The clocks: [timeit.default_timer] and [time.time] by reading index, and
    [a - b] on their readings. *)
Class Clock (time : Type) : Type := {
  time_sub : time -> time -> time;
  timer : nat -> time;
  time_time : nat -> time
}.

(** ** The state of the module *)

Section State.

Context {time payload custom : Type}.

(** *** Listener objects, the call log and the world *)

(** A reference to a listener object: its index on the heap. *)
Definition ref : Type := nat.

(** The three classes of listener.  [_duration] is an attribute that does not
    exist until [on_end] first assigns it. *)
Inductive Listener : Type :=
| TimingListener (_ts : option time) (_depth : Z) (_duration : option time)
| RecordingListener (buffer : list (time * Event payload))
| UserListener (state : custom).

Inductive call : Type :=
| call_start_event (kind : string) (data : option payload)
| call_end_event (kind : string) (data : option payload)
    (exc_details : option exc_triple)
| call_broadcast (event : Event payload)
| call_notify (listener : ref) (event : Event payload)
| call_callback (duration : time).

Record world : Type := mkWorld {
  _registered : gmap string (list ref);
  heap : list Listener;
  clock : nat;
  calls : list call
}.

Definition with_registered (r : gmap string (list ref)) (w : world) : world :=
  mkWorld r (heap w) (clock w) (calls w).
Definition with_heap (h : list Listener) (w : world) : world :=
  mkWorld (_registered w) h (clock w) (calls w).
Definition with_clock (c : nat) (w : world) : world :=
  mkWorld (_registered w) (heap w) c (calls w).
Definition with_calls (cs : list call) (w : world) : world :=
  mkWorld (_registered w) (heap w) (clock w) cs.

(** The state of the module at import: [_registered = defaultdict(list)]. *)
Definition initial_world : world := mkWorld ∅ [] 0 [].

(** *** Computations *)

Definition M (A : Type) : Type := world -> world * result A.

#[global] Instance M_ret : MRet M := fun A a w => (w, Ok a).

#[global] Instance M_bind : MBind M := fun A B f m w =>
  match m w with
  | (w', Ok a) => f a w'
  | (w', Raise e) => (w', Raise e)
  end.

Definition raise {A : Type} (e : exn) : M A := fun w => (w, Raise e).

Definition lift {A : Type} (r : result A) : M A := fun w => (w, r).

Definition trace (c : call) : M unit := fun w =>
  (with_calls (calls w ++ [c]) w, Ok tt).

(** [try: body finally: cleanup]: the cleanup runs on both paths, and a
    failure of the cleanup replaces the outcome of the body. *)
Definition try_finally (body cleanup : M unit) : M unit := fun w =>
  let '(w1, r) := body w in
  match cleanup w1 with
  | (w2, Ok _) => (w2, r)
  | (w2, Raise e) => (w2, Raise e)
  end.

(** *** Heap access *)

Definition dangling : exn := Raised "SystemError" "dangling listener reference".

Definition deref (self : ref) : M Listener := fun w =>
  match heap w !! self with
  | Some obj => (w, Ok obj)
  | None => (w, Raise dangling)
  end.

Definition store (self : ref) (obj : Listener) : M unit := fun w =>
  (with_heap (<[self := obj]> (heap w)) w, Ok tt).

Definition new (obj : Listener) : M ref := fun w =>
  (with_heap (heap w ++ [obj]) w, Ok (length (heap w))).

(** *** Registry *)

(** [_registered[kind]] on a [defaultdict(list)]: a missing key is first
    bound to a new empty list. *)
Definition _registered_getitem (kind : string) : M (list ref) := fun w =>
  match _registered w !! kind with
  | Some lst => (w, Ok lst)
  | None => (with_registered (<[kind := []]> (_registered w)) w, Ok [])
  end.

(** In-place update of the list bound to [kind]. *)
Definition _registered_setlist (kind : string) (lst : list ref) : M unit :=
  fun w => (with_registered (<[kind := lst]> (_registered w)) w, Ok tt).

(** The listeners under [kind], a missing key read as the empty list. *)
Definition listeners (w : world) (kind : string) : list ref :=
  default [] (_registered w !! kind).

Definition not_in_list : exn := ValueError "list.remove(x): x not in list".

(** [list.remove]: drop the first element equal to [x]; listeners define no
    [__eq__], so equality is identity. *)
Fixpoint list_remove (x : ref) (lst : list ref) : option (list ref) :=
  match lst with
  | [] => None
  | y :: rest =>
      if decide (y = x) then Some rest
      else match list_remove x rest with
           | Some rest' => Some (y :: rest')
           | None => None
           end
  end.

Definition register (kind : string) (listener : ref) : M unit :=
  kind ← lift (_guard_kind kind);
  lst ← _registered_getitem kind;
  _registered_setlist kind (lst ++ [listener]).

Definition unregister (kind : string) (listener : ref) : M unit :=
  kind ← lift (_guard_kind kind);
  lst ← _registered_getitem kind;
  match list_remove listener lst with
  | Some lst' => _registered_setlist kind lst'
  | None => raise not_in_list
  end.

End State.

(** ** Interfaces of the user-defined listeners *)

(** The user-defined subclasses of [Listener]: their two callbacks, given the
    reference of the listener, the state of its object and the event, are
    computations on the whole world.  [patience] bounds how many iterations
    beyond the length of the list at its start a broadcast is followed for,
    should the callbacks keep appending to the list it walks. *)
Class ListenerMethods (time payload custom : Type) : Type := {
  custom_on_start :
    ref -> custom -> Event payload ->
    M (time := time) (payload := payload) (custom := custom) unit;
  custom_on_end :
    ref -> custom -> Event payload ->
    M (time := time) (payload := payload) (custom := custom) unit;
  patience : nat
}.

(** Callbacks that keep to the listener's own object: from the event and the
    state of the object to its new state and the outcome. *)
Class UserCallbacks (payload custom : Type) : Type := {
  user_on_start : Event payload -> custom -> custom * result unit;
  user_on_end : Event payload -> custom -> custom * result unit
}.

#[global] Instance keeps_to_itself {time payload custom : Type}
    `{!UserCallbacks payload custom} : ListenerMethods time payload custom := {|
  custom_on_start self st event :=
    let '(st', r) := user_on_start event st in
    store self (UserListener st');; lift r;
  custom_on_end self st event :=
    let '(st', r) := user_on_end event st in
    store self (UserListener st');; lift r;
  patience := 0
|}.

(** ** The bus *)

Section Bus.

Context {time payload custom : Type}.
Context `{!Clock time} `{!ListenerMethods time payload custom}.

Local Abbreviation world :=
  (world (time := time) (payload := payload) (custom := custom)).
Local Abbreviation M :=
  (M (time := time) (payload := payload) (custom := custom)).
Local Abbreviation call := (call (time := time) (payload := payload)).

(** The two clocks: a reading consumes an index of the oracle. *)
Definition read_timer : M time := fun w =>
  (with_clock (S (clock w)) w, Ok (timer (clock w))).
Definition read_time_time : M time := fun w =>
  (with_clock (S (clock w)) w, Ok (time_time (clock w))).

(** *** Listeners *)

Definition no_ts : exn :=
  TypeError "unsupported operand type(s) for -: 'float' and 'NoneType'".

Definition on_start (self : ref) (event : Event payload) : M unit :=
  obj ← deref self;
  match obj with
  | TimingListener ts depth duration =>
      ts' ← match ts with
            | None => t ← read_timer; mret (Some t)
            | Some _ => mret ts
            end;
      store self (TimingListener ts' (depth + 1) duration)
  | RecordingListener buffer =>
      t ← read_time_time;
      store self (RecordingListener (buffer ++ [(t, event)]))
  | UserListener st => custom_on_start self st event
  end.

Definition on_end (self : ref) (event : Event payload) : M unit :=
  obj ← deref self;
  match obj with
  | TimingListener ts depth duration =>
      let depth' := (depth - 1)%Z in
      store self (TimingListener ts depth' duration);;
      if bool_decide (depth' = 0%Z) then
        t ← read_timer;
        match ts with
        | None => raise no_ts
        | Some t0 =>
            store self (TimingListener ts depth' (Some (time_sub t t0)))
        end
      else mret tt
  | RecordingListener buffer =>
      t ← read_time_time;
      store self (RecordingListener (buffer ++ [(t, event)]))
  | UserListener st => custom_on_end self st event
  end.

(** [Listener.notify] *)
Definition notify (self : ref) (event : Event payload) : M unit :=
  trace (call_notify self event);;
  if is_start event then on_start self event
  else if is_end event then on_end self event
  else raise (AssertionError "unreachable").

Definition no_duration : exn :=
  AttributeError "'TimingListener' object has no attribute '_duration'".

(** The [duration] property of a [TimingListener]. *)
Definition duration (self : ref) : M time :=
  obj ← deref self;
  match obj with
  | TimingListener _ _ (Some d) => mret d
  | _ => raise no_duration
  end.

(** *** broadcast *)

Definition loop_cut_off : exn :=
  Raised "Nontermination" "the loop was still being extended".

(** [for listener in lst: listener.notify(event)], where [lst] is the list
    bound to the kind: the loop reads the live list at its index at every
    step, so it sees what the callbacks have done to it. *)
Fixpoint broadcast_loop (fuel : nat) (event : Event payload) (i : nat)
    : M unit := fun w =>
  match listeners w (kind event) !! i with
  | None => (w, Ok tt)
  | Some listener =>
      match fuel with
      | 0 => (w, Raise loop_cut_off)
      | S fuel' =>
          (notify listener event;; broadcast_loop fuel' event (S i)) w
      end
  end.

Definition broadcast (event : Event payload) : M unit :=
  trace (call_broadcast event);;
  lst ← _registered_getitem (kind event);
  broadcast_loop (length lst + patience) event 0.

(** *** Emission *)

Definition start_event (kind : string) (data : option payload) : M unit :=
  trace (call_start_event kind data);;
  evt ← lift (Event_init kind START data None);
  broadcast evt.

Definition end_event (kind : string) (data : option payload)
    (exc_details : option exc_triple) : M unit :=
  trace (call_end_event kind data exc_details);;
  evt ← lift (Event_init kind END data exc_details);
  broadcast evt.

(** [contextlib.ExitStack]: an exit callback receives the 3-tuple and
    returns whether it swallows the exception. *)
Definition exit_callback : Type := exc_triple -> M bool.

(** The loop of [ExitStack.__exit__] over the callbacks, last pushed first:
    a true result clears the exception, a raising callback replaces it. *)
Fixpoint run_exit_callbacks (cbs : list exit_callback) (exc : option exn)
    (suppressed_exc pending_raise : bool) : M (option exn * bool * bool) :=
  match cbs with
  | [] => mret (exc, suppressed_exc, pending_raise)
  | cb :: rest => fun w =>
      match cb (exc_details_of exc) w with
      | (w', Ok true) => run_exit_callbacks rest None true false w'
      | (w', Ok false) =>
          run_exit_callbacks rest exc suppressed_exc pending_raise w'
      | (w', Raise new_exc) =>
          run_exit_callbacks rest (Some new_exc) suppressed_exc true w'
      end
  end.

Definition ExitStack_exit (cbs : list exit_callback) (exc : option exn)
    : M bool :=
  '(exc', suppressed_exc, pending_raise) ←
    run_exit_callbacks cbs exc false false;
  if pending_raise : bool then
    match exc' with
    | Some e => raise e
    | None => raise (TypeError "exceptions must derive from BaseException")
    end
  else mret (bool_decide (is_Some exc) && suppressed_exc).

(** [with ExitStack() as scope: block], where [cbs] are the callbacks the
    block has pushed, last pushed first. *)
Definition with_ExitStack (cbs : list exit_callback) (block : M unit)
    : M unit := fun w =>
  match block w with
  | (w1, Ok _) =>
      match ExitStack_exit cbs None w1 with
      | (w2, Ok _) => (w2, Ok tt)
      | (w2, Raise e') => (w2, Raise e')
      end
  | (w1, Raise e) =>
      match ExitStack_exit cbs (Some e) w1 with
      | (w2, Ok true) => (w2, Ok tt)
      | (w2, Ok false) => (w2, Raise e)
      | (w2, Raise e') => (w2, Raise e')
      end
  end.

(** [mark_event] is a generator-based context manager: [with mark_event(kind,
    data): body] runs the generator with [body] in place of its [yield].
    [on_exit] is pushed before [start_event] is called, and both are inside
    the [with ExitStack()] block. *)
Definition mark_event (kind : string) (data : option payload)
    (body : M unit) : M unit :=
  let on_exit : exit_callback := fun exc_details =>
    end_event kind data (Some exc_details);; mret false in
  with_ExitStack [on_exit] (start_event kind data;; body).

(** *** Scoped installers *)

Definition install_timer (kind : string) (callback : time -> M unit)
    (body : ref -> M unit) : M unit :=
  listener ← new (TimingListener None 0 None);
  register kind listener;;
  try_finally (body listener) (unregister kind listener);;
  d ← duration listener;
  trace (call_callback d);;
  callback d.

Definition install_recorder (kind : string) (body : ref -> M unit) : M unit :=
  rl ← new (RecordingListener []);
  register kind rl;;
  try_finally (body rl) (unregister kind rl).

(** *** Scenarios *)

(** Invocations in sequence:
    [for data, body in jobs: with mark_event(kind, data): body()]. *)
Fixpoint mark_events (kind : string) (jobs : list (option payload * M unit))
    : M unit :=
  match jobs with
  | [] => mret tt
  | (data, body) :: rest => mark_event kind data body;; mark_events kind rest
  end.


(** A guarded body that completes normally and does not itself touch the
    listeners of [kind], the object [l] or the log, and does not turn the
    clock back. *)
Definition quiet (kind : string) (l : ref) (body : M unit) : Prop :=
  forall w, exists w',
    body w = (w', Ok tt) /\
    listeners w' kind = listeners w kind /\
    heap w' !! l = heap w !! l /\
    clock w <= clock w'.

(** A computation that, however it ends, leaves the listeners of [kind] and
    the object [l] as they were and does not turn the clock back. *)
Definition undisturbing (kind : string) (l : ref) (body : M unit) : Prop :=
  forall w w' r,
    body w = (w', r) ->
    listeners w' kind = listeners w kind /\
    heap w' !! l = heap w !! l /\
    clock w <= clock w'.

(** [l] is registered exactly once under [kind]. *)
Definition registered_once (w : world) (kind : string) (l : ref) : Prop :=
  exists before after,
    listeners w kind = before ++ l :: after /\
    (l ∉ before) /\ (l ∉ after).

(** [event] was delivered to each of [ls] in turn, from [w] to [w'], every
    callback returning normally. *)
Fixpoint delivered (event : Event payload) (ls : list ref) (w w' : world)
    : Prop :=
  match ls with
  | [] => w' = w
  | l :: rest =>
      exists w1, notify l event w = (w1, Ok tt) /\ delivered event rest w1 w'
  end.


(** The entries a computation appended to the log. *)
Definition logged (w w' : world) : list call :=
  drop (length (calls w)) (calls w').

(** The event a log entry carries. *)
Definition event_of_call (c : call) : option (Event payload) :=
  match c with
  | call_broadcast event | call_notify _ event => Some event
  | _ => None
  end.

Definition is_call_end_event (c : call) : bool :=
  match c with call_end_event _ _ _ => true | _ => false end.

Definition is_call_callback (c : call) : bool :=
  match c with call_callback _ => true | _ => false end.

End Bus.

(** ** A concrete bus, for running the model

    Clock readings are integers, the [n]-th reading being [n]; the user
    listener counts what it sees and raises what it is configured to. *)

Module Example.

#[export] Instance clock : Clock Z := {|
  time_sub := Z.sub;
  timer := Z.of_nat;
  time_time := Z.of_nat
|}.

Record probe : Type := mkProbe {
  fail_start : option exn;
  fail_end : option exn;
  seen : nat
}.

Definition probe_callback (failure : probe -> option exn)
    (event : Event Z) (p : probe) : probe * result unit :=
  (mkProbe (fail_start p) (fail_end p) (S (seen p)),
   match failure p with Some e => Raise e | None => Ok tt end).

#[export] Instance probe_callbacks : UserCallbacks Z probe := {|
  user_on_start := probe_callback fail_start;
  user_on_end := probe_callback fail_end
|}.

Definition World : Type := world (time := Z) (payload := Z) (custom := probe).

Definition boom : exn := Raised "RuntimeError" "boom".
Definition oops : exn := Raised "KeyError" "oops".

Definition world_of (objs : list Listener) (phase : list ref) : World :=
  mkWorld {[ "phase" := phase ]} objs 0 [].

(** One user listener under "phase" that raises in [on_start]. *)
Definition start_fails : World :=
  world_of [UserListener (mkProbe (Some boom) None 0)] [0].


(** Two well-behaved listeners under "phase", the first registered twice. *)
Definition two_probes : World :=
  world_of [UserListener (mkProbe None None 0);
            UserListener (mkProbe None None 0)] [0; 1; 0].

(** A fresh [TimingListener], respectively [RecordingListener], alone under
    "phase". *)
Definition timed : World := world_of [TimingListener None 0 None] [0].
Definition recorded : World := world_of [RecordingListener []] [0].

Definition recorded_among : World :=
  world_of [UserListener (mkProbe None None 0);
            RecordingListener [];
            UserListener (mkProbe None None 0)] [0; 1; 2].

Definition fresh : World := initial_world.

Definition Body : Type := M (time := Z) (payload := Z) (custom := probe) unit.

Definition pass : Body := mret tt.

(** A body that raises. *)
Definition failing : Body := raise oops.

(** A timer callback that does nothing. *)
Definition ignore (duration : Z) : Body := mret tt.

Definition phase_start (data : option Z) : Event Z :=
  mkEvent "phase" START data None.
Definition phase_end (data : option Z) (exc : exc_triple) : Event Z :=
  mkEvent "phase" END data (Some exc).




(** A user listener that takes itself off the list of the event's kind when
    it is notified: [def on_start(self, event): unregister(event.kind, self)]
    and the same for [on_end]. *)
Inductive leaver : Type := Leaver.

#[export] Instance leaver_methods : ListenerMethods Z Z leaver := {|
  custom_on_start self _ event := unregister (kind event) self;
  custom_on_end self _ event := unregister (kind event) self;
  patience := 0
|}.


End Example.

(** ** Tactics *)


Ltac run_all :=
  unfold notify, on_start, on_end, custom_on_start, custom_on_end,
    keeps_to_itself, duration, deref, store, new, trace, lift,
    raise, read_timer, read_time_time, mbind, M_bind, mret, M_ret in *;
  simpl in *.

(** ** Properties that hold whatever the listeners do *)

Section GeneralFacts.

Context {time payload custom : Type}.
Context `{!Clock time} `{!ListenerMethods time payload custom}.

Local Abbreviation world := (world (time := time) (payload := payload) (custom := custom)).
Local Abbreviation M := (M (time := time) (payload := payload) (custom := custom)).

Implicit Types (w : world) (event : Event payload) (l self : ref).

Lemma guard_kind_cases (k : string) :
  _guard_kind k = Ok k \/ _guard_kind k = Raise (ValueError (invalid_kind_msg k)).
Proof. unfold _guard_kind. case_match; auto. Qed.

Lemma guard_kind_ok_inv (k k' : string) : _guard_kind k = Ok k' -> k' = k.
Proof. unfold _guard_kind. case_match; congruence. Qed.

Lemma bind_run {A B : Type} (m : M A) (f : A -> M B) w :
  (m ≫= f) w =
  match m w with
  | (w', Ok a) => f a w'
  | (w', Raise e) => (w', Raise e)
  end.
Proof. reflexivity. Qed.

Lemma bind_ok {A B : Type} (m : M A) (f : A -> M B) w w' a :
  m w = (w', Ok a) -> (m ≫= f) w = f a w'.
Proof. intros Hm. rewrite bind_run, Hm. reflexivity. Qed.

Lemma bind_raise {A B : Type} (m : M A) (f : A -> M B) w w' e :
  m w = (w', Raise e) -> (m ≫= f) w = (w', Raise e).
Proof. intros Hm. rewrite bind_run, Hm. reflexivity. Qed.

Lemma delivered_snoc event (ls : list ref) l w w1 w' :
  delivered event ls w w1 -> notify l event w1 = (w', Ok tt) ->
  delivered event (ls ++ [l]) w w'.
Proof.
  revert w. induction ls as [|x ls IH]; simpl; intros w.
  - intros ->. eauto.
  - intros (w2 & Hx & Hrest) Hl. eauto.
Qed.

Lemma listeners_lookup w k (lst : list ref) :
  _registered w !! k = Some lst -> listeners w k = lst.
Proof. unfold listeners. intros ->. done. Qed.


Lemma getitem_run k w :
  exists w',
    _registered_getitem k w = (w', Ok (listeners w k)) /\
    _registered w' !! k = Some (listeners w k) /\
    (forall k', k' <> k -> _registered w' !! k' = _registered w !! k') /\
    (forall k', listeners w' k' = listeners w k') /\
    heap w' = heap w /\ clock w' = clock w /\ calls w' = calls w /\
    (is_Some (_registered w !! k) -> w' = w).
Proof.
  unfold _registered_getitem, listeners.
  destruct (_registered w !! k) as [lst|] eqn:Hk; eexists; (split; [done|]); simpl.
  - split_and!; done.
  - rewrite lookup_insert_eq. split_and!; try done.
    + intros k' Hk'. by rewrite lookup_insert_ne.
    + intros k'. destruct (decide (k = k')) as [<-|Hne].
      * rewrite lookup_insert_eq, Hk. done.
      * rewrite lookup_insert_ne by done. done.
Qed.

Lemma setlist_listeners k (lst : list ref) w k' :
  listeners (_registered_setlist k lst w).1 k' =
  if decide (k' = k) then lst else listeners w k'.
Proof.
  unfold _registered_setlist, listeners. simpl. case_decide as Hk.
  - subst. by rewrite lookup_insert_eq.
  - by rewrite lookup_insert_ne.
Qed.

Lemma logged_app w w' (cs : list call) :
  calls w' = calls w ++ cs -> logged w w' = cs.
Proof. unfold logged. intros ->. by rewrite drop_app_length. Qed.

Lemma listeners_same_registry w w' k :
  _registered w' = _registered w -> listeners w' k = listeners w k.
Proof. unfold listeners. by intros ->. Qed.

Lemma register_run k l w :
  _guard_kind k = Ok k ->
  exists w',
    register k l w = (w', Ok tt) /\
    listeners w' k = listeners w k ++ [l] /\
    (forall k', k' <> k -> listeners w' k' = listeners w k') /\
    heap w' = heap w /\ clock w' = clock w /\ calls w' = calls w.
Proof.
  intros Hk. unfold register, lift. rewrite bind_run, Hk, bind_run.
  destruct (getitem_run k w) as (w0 & -> & _ & _ & Hls & Hh & Hc & Hcalls & _).
  eexists. split; [reflexivity|].
  split_and!; try done.
  - pose proof (setlist_listeners k (listeners w k ++ [l]) w0 k) as Hs.
    rewrite decide_True in Hs by done. exact Hs.
  - intros k' Hk'.
    pose proof (setlist_listeners k (listeners w k ++ [l]) w0 k') as Hs.
    rewrite decide_False in Hs by done. rewrite <- (Hls k'). exact Hs.
Qed.

Lemma guard_raise_run {A : Type} k e (f : string -> M A) w :
  _guard_kind k = Raise e -> (lift (_guard_kind k) ≫= f) w = (w, Raise e).
Proof. intros Hk. unfold lift. rewrite bind_run, Hk. done. Qed.

Lemma list_remove_Some x (lst lst' : list ref) :
  list_remove x lst = Some lst' ->
  exists before after,
    lst = before ++ x :: after /\ (x ∉ before) /\ lst' = before ++ after.
Proof.
  revert lst'. induction lst as [|y lst IH]; simpl; intros lst'; [done|].
  case_decide as Hy.
  - intros [= <-]. subst. exists [], lst. split_and!; [done| |done].
    apply not_elem_of_nil.
  - destruct (list_remove x lst) as [rest'|]; [|done].
    intros [= <-]. destruct (IH _ eq_refl) as (before & after & -> & Hb & ->).
    exists (y :: before), after. split_and!; [done| |done].
    rewrite not_elem_of_cons. split; [congruence|done].
Qed.

Lemma list_remove_None x (lst : list ref) :
  list_remove x lst = None <-> x ∉ lst.
Proof.
  induction lst as [|y lst IH]; simpl.
  - split; [intros _; apply not_elem_of_nil | done].
  - rewrite not_elem_of_cons. case_decide as Hy.
    + split; [done | intros [Hne _]; congruence].
    + destruct (list_remove x lst); split; try done.
      * intros [_ Hin]. apply IH in Hin. done.
      * intros _. split; [congruence | by apply IH].
Qed.

Lemma unregister_run k l w :
  _guard_kind k = Ok k ->
  exists w',
    (forall k', k' <> k -> listeners w' k' = listeners w k') /\
    heap w' = heap w /\ clock w' = clock w /\ calls w' = calls w /\
    match list_remove l (listeners w k) with
    | Some lst' => unregister k l w = (w', Ok tt) /\ listeners w' k = lst'
    | None =>
        unregister k l w = (w', Raise not_in_list) /\
        listeners w' k = listeners w k
    end.
Proof.
  intros Hk. unfold unregister, lift. rewrite bind_run, Hk, bind_run.
  destruct (getitem_run k w) as (w0 & -> & _ & _ & Hls & Hh & Hc & Hcalls & _).
  destruct (list_remove l (listeners w k)) as [lst'|] eqn:Hrm.
  - exists (_registered_setlist k lst' w0).1.
    split; [|split; [done|split; [done|split; [done|split; [done|]]]]].
    + intros k' Hk'. pose proof (setlist_listeners k lst' w0 k') as Hs.
      rewrite decide_False in Hs by done. rewrite <- (Hls k'). exact Hs.
    + pose proof (setlist_listeners k lst' w0 k) as Hs.
      rewrite decide_True in Hs by done. exact Hs.
  - exists w0.
    split; [|split; [done|split; [done|split; [done|split; [done|]]]]].
    + intros k' _. apply Hls.
    + apply Hls.
Qed.

Lemma Event_init_ok k st (d : option payload) (x : option exc_triple) :
  _guard_kind k = Ok k -> Event_init k st d x = Ok (mkEvent k st d x).
Proof. unfold Event_init. by intros ->. Qed.

Lemma start_event_run k (d : option payload) w :
  _guard_kind k = Ok k ->
  start_event k d w =
  broadcast (mkEvent k START d None)
    (with_calls (calls w ++ [call_start_event k d]) w).
Proof.
  intros Hk. unfold start_event, lift, trace.
  rewrite bind_run, bind_run, Event_init_ok by done. done.
Qed.

Lemma end_event_run k (d : option payload) (x : option exc_triple) w :
  _guard_kind k = Ok k ->
  end_event k d x w =
  broadcast (mkEvent k END d x)
    (with_calls (calls w ++ [call_end_event k d x]) w).
Proof.
  intros Hk. unfold end_event, lift, trace.
  rewrite bind_run, bind_run, Event_init_ok by done. done.
Qed.

(** The exit stack of [mark_event] holds the one callback [on_exit], which
    never swallows: the block's outcome stands unless [end_event] raises. *)
Lemma mark_event_run k (d : option payload) (body : M unit) w :
  mark_event k d body w =
  match (start_event k d;; body) w with
  | (w1, Ok _) =>
      match end_event k d (Some no_exc) w1 with
      | (w2, Ok _) => (w2, Ok tt)
      | (w2, Raise e') => (w2, Raise e')
      end
  | (w1, Raise e) =>
      match end_event k d (Some (exc_info e)) w1 with
      | (w2, Ok _) => (w2, Raise e)
      | (w2, Raise e') => (w2, Raise e')
      end
  end.
Proof.
  unfold mark_event, with_ExitStack, ExitStack_exit.
  destruct ((start_event k d;; body) w) as [w1 [[]|e]];
    rewrite bind_run; simpl; rewrite bind_run.
  - destruct (end_event k d (Some no_exc) w1) as [w2 [[]|e']]; done.
  - destruct (end_event k d (Some (exc_info e)) w1) as [w2 [[]|e']]; done.
Qed.

(** Whatever the outcome [rb] of the block (the Start phase, then the guarded
    body), [end_event] is run once, in the world the block left, with the
    triple of that outcome; its world is the final one, and the outcome of
    the block stands unless [end_event] itself raises. *)
Lemma mark_event_exit k (d : option payload) (body : M unit) w w1 rb :
  (start_event k d;; body) w = (w1, rb) ->
  exists w2 r2,
    end_event k d (Some (exc_details_of (failure rb))) w1 = (w2, r2) /\
    mark_event k d body w =
      (w2, match r2 with Ok _ => rb | Raise e' => Raise e' end).
Proof.
  intros Hblock. rewrite mark_event_run, Hblock.
  destruct rb as [[]|e]; simpl.
  - destruct (end_event k d (Some no_exc) w1) as [w2 [[]|e']]; eauto.
  - destruct (end_event k d (Some (exc_info e)) w1) as [w2 [[]|e']]; eauto.
Qed.


Lemma list_remove_snoc x (lst : list ref) :
  x ∉ lst -> list_remove x (lst ++ [x]) = Some lst.
Proof.
  induction lst as [|y lst IH]; simpl; intros Hx.
  - by rewrite decide_True.
  - rewrite not_elem_of_cons in Hx. destruct Hx as [Hne Hx].
    rewrite decide_False by congruence. by rewrite IH.
Qed.

Lemma bind_ok_inv {A B : Type} (m : M A) (f : A -> M B) w w' b :
  (m ≫= f) w = (w', Ok b) ->
  exists wm a, m w = (wm, Ok a) /\ f a wm = (w', Ok b).
Proof.
  rewrite bind_run. destruct (m w) as [wm [a|e]]; [eauto | done].
Qed.

Lemma delivered_app_inv event (ls1 ls2 : list ref) w w' :
  delivered event (ls1 ++ ls2) w w' ->
  exists wm, delivered event ls1 w wm /\ delivered event ls2 wm w'.
Proof.
  revert w. induction ls1 as [|x ls1 IH]; simpl; intros w.
  - eauto.
  - intros (w1 & Hx & Hrest). destruct (IH _ Hrest) as (wm & H1 & H2).
    exists wm. eauto.
Qed.

(** A [mark_event] that returns normally went through its three phases. *)
Lemma mark_event_ok_inv k (d : option payload) (body : M unit) w w3 :
  mark_event k d body w = (w3, Ok tt) ->
  exists w1 w2,
    start_event k d w = (w1, Ok tt) /\
    body w1 = (w2, Ok tt) /\
    end_event k d (Some no_exc) w2 = (w3, Ok tt).
Proof.
  rewrite mark_event_run.
  destruct ((start_event k d;; body) w) as [w2 [[]|e]] eqn:Hblock.
  - apply bind_ok_inv in Hblock as (w1 & [] & Hs & Hb).
    destruct (end_event k d (Some no_exc) w2) as [w3' [[]|e']] eqn:Hend;
      [|done].
    intros [= <-]. eauto.
  - destruct (end_event k d (Some (exc_info e)) w2) as [w3' [[]|e']]; done.
Qed.

Lemma new_run (obj : Listener) w :
  new obj w = (with_heap (heap w ++ [obj]) w, Ok (length (heap w))).
Proof. reflexivity. Qed.

(** What both installers do up to the end of the [finally] clause: the
    cleanup [unregister] decides, by whether the listener is still in the
    list when the body ends. *)
Lemma scoped_unregister k l (body : M unit) w1 w2 rb :
  _guard_kind k = Ok k ->
  body w1 = (w2, rb) ->
  exists w3,
    heap w3 = heap w2 /\ clock w3 = clock w2 /\ calls w3 = calls w2 /\
    (forall k', k' <> k -> listeners w3 k' = listeners w2 k') /\
    match list_remove l (listeners w2 k) with
    | Some lst' =>
        try_finally body (unregister k l) w1 = (w3, rb) /\
        listeners w3 k = lst'
    | None =>
        try_finally body (unregister k l) w1 = (w3, Raise not_in_list) /\
        listeners w3 k = listeners w2 k
    end.
Proof.
  intros Hk Hbody.
  destruct (unregister_run k l w2 Hk) as (w3 & Ho & Hh & Hc & Hcs & Hun).
  exists w3. split_and!; try done.
  unfold try_finally. rewrite Hbody.
  destruct (list_remove l (listeners w2 k)); destruct Hun as [-> Hl]; done.
Qed.

Lemma list_remove_first x (before rest : list ref) :
  x ∉ before -> list_remove x (before ++ x :: rest) = Some (before ++ rest).
Proof.
  induction before as [|y before IH]; simpl; intros Hx.
  - by rewrite decide_True.
  - rewrite not_elem_of_cons in Hx. destruct Hx as [Hne Hx].
    rewrite decide_False by congruence. by rewrite IH.
Qed.

(** *** The loop of broadcast *)



(** The loop over the live list, when no notification changes the list of
    the event's kind: it walks the list from its index on, in order, until
    the end or the first failure, provided it may take as many steps as
    there are entries left. *)
Lemma broadcast_loop_run event :
  (forall l w1 w2 r,
     notify l event w1 = (w2, r) ->
     listeners w2 (kind event) = listeners w1 (kind event)) ->
  forall fuel i w w' r,
    length (listeners w (kind event)) <= i + fuel ->
    broadcast_loop fuel event i w = (w', r) ->
    exists notified rest,
      drop i (listeners w (kind event)) = notified ++ rest /\
      match r with
      | Ok _ => rest = [] /\ delivered event notified w w'
      | Raise e =>
          exists before l w1,
            notified = before ++ [l] /\
            delivered event before w w1 /\
            notify l event w1 = (w', Raise e)
      end.
Proof.
  intros Hkeep. induction fuel as [|fuel IH]; intros i w w' r Hlen.
  - simpl. destruct (listeners w (kind event) !! i) as [l|] eqn:Hi.
    { apply lookup_lt_Some in Hi. lia. }
    intros [= <- <-]. exists [], []. split; [|done].
    rewrite drop_ge; [done|]. by apply lookup_ge_None.
  - simpl. destruct (listeners w (kind event) !! i) as [l|] eqn:Hi.
    + rewrite bind_run. destruct (notify l event w) as [w1 [[]|e]] eqn:Hn.
      * intros Hloop. pose proof (Hkeep _ _ _ _ Hn) as Hsame.
        apply IH in Hloop as (notified & rest & Hdrop & Hr);
          [|rewrite Hsame; lia].
        rewrite Hsame in Hdrop.
        exists (l :: notified), rest. split.
        { rewrite (drop_S _ _ _ Hi), Hdrop. done. }
        destruct r as [[]|e].
        -- destruct Hr as [-> Hd]. split; [done|]. simpl. eauto.
        -- destruct Hr as (before & l' & w2 & -> & Hd & Hl').
           exists (l :: before), l', w2. split; [done|].
           split; [simpl; eauto | done].
      * intros [= <- <-].
        exists [l], (drop (S i) (listeners w (kind event))). split.
        { by rewrite (drop_S _ _ _ Hi). }
        exists [], l, w. done.
    + intros [= <- <-]. exists [], []. split; [|done].
      rewrite drop_ge; [done|]. by apply lookup_ge_None.
Qed.

(** [broadcast] when no notification changes the list of the event's kind:
    it logs itself, enters the loop in a world [w0] that differs from [w] by
    the log (and by the empty list a [defaultdict] binds to a missing key),
    and delivers to the listeners of the kind in list order until one
    raises. *)
Lemma broadcast_loop_whole event w w' r :
  (forall l w1 w2 r,
     notify l event w1 = (w2, r) ->
     listeners w2 (kind event) = listeners w1 (kind event)) ->
  broadcast event w = (w', r) ->
  exists w0 notified rest,
    (calls w0 = calls w ++ [call_broadcast event] /\
     heap w0 = heap w /\ clock w0 = clock w /\
     forall k, listeners w0 k = listeners w k) /\
    listeners w (kind event) = notified ++ rest /\
    match r with
    | Ok _ => rest = [] /\ delivered event notified w0 w'
    | Raise e =>
        exists before l w1,
          notified = before ++ [l] /\
          delivered event before w0 w1 /\
          notify l event w1 = (w', Raise e)
    end.
Proof.
  intros Hkeep. unfold broadcast. rewrite bind_run. simpl.
  set (wt := with_calls (calls w ++ [call_broadcast event]) w).
  rewrite bind_run.
  destruct (getitem_run (kind event) wt)
    as (w0 & -> & _ & _ & Hls & Hh & Hc & Hcalls & _).
  change (listeners wt (kind event)) with (listeners w (kind event)).
  intros Hloop.
  assert (Hl0 : forall k, listeners w0 k = listeners w k).
  { intros k. by rewrite Hls. }
  apply (broadcast_loop_run event Hkeep) in Hloop
    as (notified & rest & Heq & Hr); [|rewrite Hl0; lia].
  rewrite drop_0, Hl0 in Heq.
  exists w0, notified, rest.
  split; [|done].
  split_and!; [by rewrite Hcalls | by rewrite Hh | by rewrite Hc | done].
Qed.



(** *** Delivery order *)


(** *** mark_event: the End phase *)


(** *** install_timer *)

(** [install_timer] allocates a fresh [TimingListener],
    registers it under the (valid) kind and runs the guarded body.  Provided
    the listener is still registered when the body ends, the [unregister] of
    the [finally] clause succeeds on both paths and takes its first
    occurrence out of the list (all of it, if the body left the
    registrations alone).  Then:
    - if the body raised [e], [e] propagates and the callback is not called;
    - if the body ended normally and the listener holds a duration [d], what
      remains is one call of the callback on [d], made after the removal;
    - if the body ended normally and the listener holds no duration (no
      Start..End cycle of the kind came back to depth zero), reading
      [duration] raises [AttributeError] and the callback is not called. *)
Theorem install_timer_exit
    k (callback : time -> M unit) (body : ref -> M unit) w w0 l w1 w2 rb :
  _guard_kind k = Ok k ->
  new (TimingListener None 0 None) w = (w0, Ok l) ->
  register k l w0 = (w1, Ok tt) ->
  body l w1 = (w2, rb) ->
  l ∈ listeners w2 k ->
  exists w3 before after,
    listeners w1 k = listeners w k ++ [l] /\
    listeners w2 k = before ++ l :: after /\
    (l ∉ before) /\
    unregister k l w2 = (w3, Ok tt) /\
    listeners w3 k = before ++ after /\
    heap w3 = heap w2 /\ calls w3 = calls w2 /\
    (listeners w2 k = listeners w1 k -> (l ∉ listeners w k) ->
       listeners w3 k = listeners w k) /\
    match rb with
    | Raise e => install_timer k callback body w = (w3, Raise e)
    | Ok _ =>
        match heap w2 !! l with
        | Some (TimingListener _ _ (Some d)) =>
            install_timer k callback body w =
              callback d (with_calls (calls w3 ++ [call_callback d]) w3)
        | Some _ => install_timer k callback body w = (w3, Raise no_duration)
        | None => install_timer k callback body w = (w3, Raise dangling)
        end
    end.
Proof.
  intros Hk Hnew Hreg Hbody Hin.
  destruct (register_run k l w0 Hk) as (w1' & Hreg' & Hl1 & _).
  rewrite Hreg in Hreg'. injection Hreg' as <-.
  assert (Hw0 : listeners w0 k = listeners w k).
  { unfold new in Hnew. by injection Hnew as <- _. }
  rewrite Hw0 in Hl1.
  destruct (unregister_run k l w2 Hk) as (w3 & _ & Hh3 & _ & Hc3 & Hun).
  destruct (list_remove l (listeners w2 k)) as [lst'|] eqn:Hrm;
    [|by apply list_remove_None in Hrm].
  destruct Hun as [Hun Hl3].
  pose proof Hrm as Hrm'.
  apply list_remove_Some in Hrm' as (before & after & Hls & Hb & ->).
  exists w3, before, after. split_and!; try done.
  - intros Hsame Hfresh. rewrite Hsame, Hl1 in Hrm.
    rewrite list_remove_snoc in Hrm by done. congruence.
  - unfold install_timer.
    rewrite (bind_ok _ _ _ _ _ Hnew), (bind_ok _ _ _ _ _ Hreg), bind_run.
    unfold try_finally. rewrite Hbody, Hun.
    destruct rb as [[]|e]; [|done].
    unfold duration, deref. rewrite !bind_run, Hh3.
    destruct (heap w2 !! l) as [[ts depth [d|]|buf|st]|]; done.
Qed.

(** *** install_timer around a body that emits nothing *)

(** C7, where the code departs from its documentation.  Under a valid kind,
    a timer installed around a body that does nothing: the scope ends
    normally and the listener is taken out of the list again, but the
    listener has seen no End record, so it has no [_duration]; reading
    [duration] raises [AttributeError], and the callback, whichever it is,
    is not called. *)
Theorem install_timer_pass_raises k w :
  _guard_kind k = Ok k ->
  exists w',
    (forall callback : time -> M unit,
       install_timer k callback (fun _ => mret tt) w =
         (w', Raise no_duration)) /\
    heap w' = heap w ++ [TimingListener None 0 None] /\
    clock w' = clock w /\
    calls w' = calls w /\
    (forall k', k' <> k -> listeners w' k' = listeners w k').
Proof.
  intros Hk.
  set (l := length (heap w)).
  set (w0 := with_heap (heap w ++ [TimingListener None 0 None]) w).
  destruct (register_run k l w0 Hk) as (w1 & Hreg & Hl1 & Ho1 & Hh1 & Hc1 & Hcs1).
  destruct (scoped_unregister k l (mret tt) w1 w1 (Ok tt) Hk eq_refl)
    as (w3 & Hh3 & Hc3 & Hcs3 & Ho3 & Hun).
  destruct (list_remove l (listeners w1 k)) as [lst'|] eqn:Hrm.
  2: { apply list_remove_None in Hrm. exfalso. apply Hrm.
       rewrite Hl1. apply elem_of_app. right. by left. }
  destruct Hun as [Hun _].
  exists w3. split_and!.
  - intros callback. unfold install_timer.
    rewrite bind_run, new_run. fold l w0.
    rewrite bind_run, Hreg, bind_run, Hun.
    unfold duration, deref. rewrite bind_run, bind_run, Hh3, Hh1.
    unfold w0. simpl. unfold l. rewrite list_lookup_middle by done. done.
  - by rewrite Hh3, Hh1.
  - by rewrite Hc3, Hc1.
  - by rewrite Hcs3, Hcs1.
  - intros k' Hk'. rewrite Ho3, Ho1; done.
Qed.

End GeneralFacts.

(** ** Properties of listeners that keep to themselves *)

Section BusFacts.

Context {time payload custom : Type}.
Context `{!Clock time} `{!UserCallbacks payload custom}.

Local Abbreviation world := (world (time := time) (payload := payload) (custom := custom)).
Local Abbreviation M := (M (time := time) (payload := payload) (custom := custom)).

Implicit Types (w : world) (event : Event payload) (l self : ref).

(** *** Listener.notify *)

(** A notification is logged once, touches no other object and not the
    registry, and never turns the clock back. *)
Lemma notify_frame self event w w' r :
  notify self event w = (w', r) ->
  _registered w' = _registered w /\
  calls w' = calls w ++ [call_notify self event] /\
  length (heap w') = length (heap w) /\
  (forall l, l <> self -> heap w' !! l = heap w !! l) /\
  clock w <= clock w'.
Proof.
  run_all. intros Hrun.
  repeat case_match; simplify_eq; simpl;
    rewrite ?length_insert;
    (split_and!; [done | done | done | | lia]);
    intros l Hl; rewrite ?list_lookup_insert_ne by done; done.
Qed.


(** What a run of deliveries leaves behind. *)
Lemma delivered_frame event (ls : list ref) w w' :
  delivered event ls w w' ->
  _registered w' = _registered w /\
  calls w' = calls w ++ ((fun l => call_notify l event) <$> ls) /\
  length (heap w') = length (heap w) /\
  (forall l, l ∉ ls -> heap w' !! l = heap w !! l) /\
  clock w <= clock w'.
Proof.
  revert w. induction ls as [|x ls IH]; simpl; intros w.
  - intros ->. rewrite app_nil_r. auto.
  - intros (w1 & Hx & Hrest).
    apply notify_frame in Hx as (Hr1 & Hc1 & Hh1 & Ho1 & Hk1).
    apply IH in Hrest as (Hr2 & Hc2 & Hh2 & Ho2 & Hk2).
    split_and!; [congruence | | congruence | | lia].
    + rewrite Hc2, Hc1, <- app_assoc. done.
    + intros l Hl. rewrite not_elem_of_cons in Hl. destruct Hl.
      rewrite Ho2, Ho1; done.
Qed.

(** *** broadcast *)

(** The whole of what [broadcast] does: it logs itself, enters the loop in a
    world [w0] that differs from [w] by the log (and by the empty list a
    [defaultdict] binds to a missing key), and delivers to the listeners of
    the kind in list order until one raises. *)
Lemma broadcast_run event w w' r :
  broadcast event w = (w', r) ->
  exists w0 notified rest,
    (calls w0 = calls w ++ [call_broadcast event] /\
     heap w0 = heap w /\ clock w0 = clock w /\
     forall k, listeners w0 k = listeners w k) /\
    listeners w (kind event) = notified ++ rest /\
    match r with
    | Ok _ => rest = [] /\ delivered event notified w0 w'
    | Raise e =>
        exists before l w1,
          notified = before ++ [l] /\
          delivered event before w0 w1 /\
          notify l event w1 = (w', Raise e)
    end /\
    calls w' =
      calls w ++ call_broadcast event ::
        ((fun l => call_notify l event) <$> notified) /\
    (forall k, listeners w' k = listeners w k) /\
    length (heap w') = length (heap w) /\
    (forall l, l ∉ notified -> heap w' !! l = heap w !! l) /\
    clock w <= clock w'.
Proof.
  intros Hrun. apply broadcast_loop_whole in Hrun
    as (w0 & notified & rest & Hw0 & Heq & Hr).
  2: { intros l w1 w2 r' Hn. apply listeners_same_registry.
       by apply notify_frame in Hn as (-> & _). }
  exists w0, notified, rest.
  destruct Hw0 as (Hc0 & Hh0 & Hk0 & Hl0).
  split; [done|]. split; [done|]. split; [done|].
  destruct r as [[]|e].
  - destruct Hr as [-> Hd].
    apply delivered_frame in Hd as (Hr1 & Hc1 & Hh1 & Ho1 & Hk1).
    split_and!.
    + rewrite Hc1, Hc0, <- app_assoc. done.
    + intros k. rewrite <- Hl0. by apply listeners_same_registry.
    + congruence.
    + intros l Hl. rewrite Ho1, Hh0; done.
    + lia.
  - destruct Hr as (before & l & w1 & -> & Hd & Hl).
    apply delivered_frame in Hd as (Hr1 & Hc1 & Hh1 & Ho1 & Hk1).
    apply notify_frame in Hl as (Hr2 & Hc2 & Hh2 & Ho2 & Hk2).
    split_and!.
    + rewrite Hc2, Hc1, Hc0, fmap_app, <- !app_assoc. done.
    + intros k. rewrite <- Hl0.
      apply listeners_same_registry. congruence.
    + congruence.
    + intros x Hx. rewrite not_elem_of_app, not_elem_of_cons in Hx.
      destruct Hx as [Hx1 [Hx2 _]]. rewrite Ho2, Ho1, Hh0; done.
    + lia.
Qed.

(** *** Emission *)

(** [end_event] under a valid kind: one entry for the call, then the
    broadcast of the End record to the listeners of the kind, in order. *)
Lemma end_event_log k (d : option payload) (x : option exc_triple) w w' r :
  _guard_kind k = Ok k ->
  end_event k d x w = (w', r) ->
  exists notified rest,
    listeners w k = notified ++ rest /\
    (r = Ok tt -> rest = []) /\
    logged w w' =
      call_end_event k d x :: call_broadcast (mkEvent k END d x) ::
        ((fun l => call_notify l (mkEvent k END d x)) <$> notified) /\
    (forall k', listeners w' k' = listeners w k') /\
    length (heap w') = length (heap w) /\
    (forall l, l ∉ notified -> heap w' !! l = heap w !! l) /\
    clock w <= clock w'.
Proof.
  intros Hk. rewrite end_event_run by done. intros Hb.
  apply broadcast_run in Hb
    as (w0 & notified & rest & _ & Hls & Hr & Hc & Hl & Hh & Ho & Hclk).
  exists notified, rest. split_and!; try done.
  - intros ->. by destruct Hr.
  - apply logged_app. rewrite Hc. simpl. by rewrite <- app_assoc.
Qed.

Lemma start_event_log k (d : option payload) w w' r :
  _guard_kind k = Ok k ->
  start_event k d w = (w', r) ->
  exists notified rest,
    listeners w k = notified ++ rest /\
    (r = Ok tt -> rest = []) /\
    logged w w' =
      call_start_event k d :: call_broadcast (mkEvent k START d None) ::
        ((fun l => call_notify l (mkEvent k START d None)) <$> notified) /\
    (forall k', listeners w' k' = listeners w k') /\
    length (heap w') = length (heap w) /\
    (forall l, l ∉ notified -> heap w' !! l = heap w !! l) /\
    clock w <= clock w'.
Proof.
  intros Hk. rewrite start_event_run by done. intros Hb.
  apply broadcast_run in Hb
    as (w0 & notified & rest & _ & Hls & Hr & Hc & Hl & Hh & Ho & Hclk).
  exists notified, rest. split_and!; try done.
  - intros ->. by destruct Hr.
  - apply logged_app. rewrite Hc. simpl. by rewrite <- app_assoc.
Qed.

(** *** mark_event through the ExitStack *)

Lemma start_event_events k (d : option payload) w c ev :
  c ∈ logged w (start_event k d w).1 ->
  event_of_call c = Some ev -> ev = mkEvent k START d None.
Proof.
  destruct (guard_kind_cases k) as [Hk|Hk].
  - destruct (start_event k d w) as [w' r] eqn:Hrun. simpl.
    apply start_event_log in Hrun as (notified & rest & _ & _ & -> & _); [|done].
    rewrite !elem_of_cons, list_elem_of_fmap.
    intros [->|[->|(l & -> & _)]]; simpl; congruence.
  - unfold start_event, Event_init, lift, trace.
    rewrite bind_run, bind_run, Hk. simpl.
    rewrite (logged_app w _ [call_start_event k d]) by done.
    rewrite list_elem_of_singleton. intros ->. done.
Qed.

Lemma end_event_events k (d : option payload) x w c ev :
  c ∈ logged w (end_event k d x w).1 ->
  event_of_call c = Some ev -> ev = mkEvent k END d x.
Proof.
  destruct (guard_kind_cases k) as [Hk|Hk].
  - destruct (end_event k d x w) as [w' r] eqn:Hrun. simpl.
    apply end_event_log in Hrun as (notified & rest & _ & _ & -> & _); [|done].
    rewrite !elem_of_cons, list_elem_of_fmap.
    intros [->|[->|(l & -> & _)]]; simpl; congruence.
  - unfold end_event, Event_init, lift, trace.
    rewrite bind_run, bind_run, Hk. simpl.
    rewrite (logged_app w _ [call_end_event k d x]) by done.
    rewrite list_elem_of_singleton. intros ->. done.
Qed.

(** *** The guard at its use sites *)

(** C3.  A kind without the reserved prefix "numba:" passes the guard and is
    returned unchanged; a kind with the prefix passes (unchanged) exactly
    when it is one of the built-in kinds, and is otherwise rejected with the
    guard's [ValueError], the spec's InvalidEventKind.  [register],
    [unregister] and the [Event] built by [start_event] and [end_event] all
    go through the guard: a rejected kind makes each of them raise the
    guard's error, and an accepted kind is the kind they use. *)
Theorem guard_kind_spec (k : string) :
  (String.prefix "numba:" k = false -> _guard_kind k = Ok k) /\
  (String.prefix "numba:" k = true ->
     (_guard_kind k = Ok k <-> k ∈ _builtin_kinds) /\
     (k ∉ _builtin_kinds ->
        _guard_kind k = Raise (ValueError (invalid_kind_msg k)))) /\
  (forall e, _guard_kind k = Raise e ->
     e = ValueError (invalid_kind_msg k) /\
     forall l w st (d : option payload) x,
       register k l w = (w, Raise e) /\
       unregister k l w = (w, Raise e) /\
       Event_init k st d x = Raise e /\
       (start_event k d w).2 = Raise e /\
       (end_event k d x w).2 = Raise e) /\
  (_guard_kind k = Ok k ->
     forall l w st (d : option payload) x,
       (register k l w).2 = Ok tt /\
       listeners (register k l w).1 k = listeners w k ++ [l] /\
       ((unregister k l w).2 = Ok tt \/
        (unregister k l w).2 = Raise not_in_list) /\
       Event_init k st d x = Ok (mkEvent k st d x) /\
       start_event k d w =
         broadcast (mkEvent k START d None)
           (with_calls (calls w ++ [call_start_event k d]) w) /\
       end_event k d x w =
         broadcast (mkEvent k END d x)
           (with_calls (calls w ++ [call_end_event k d x]) w)).
Proof.
  split_and!.
  - unfold _guard_kind. by intros ->.
  - unfold _guard_kind. intros ->. simpl. split.
    + case_bool_decide; simpl; split; done.
    + intros Hk. by rewrite bool_decide_false.
  - intros e He. split.
    { destruct (guard_kind_cases k); congruence. }
    intros l w st d x. split_and!.
    + unfold register. by apply guard_raise_run.
    + unfold unregister. by apply guard_raise_run.
    + unfold Event_init. by rewrite He.
    + unfold start_event, Event_init, lift, trace.
      rewrite bind_run, bind_run, He. done.
    + unfold end_event, Event_init, lift, trace.
      rewrite bind_run, bind_run, He. done.
  - intros Hk l w st d x.
    destruct (register_run k l w Hk) as (w' & Hreg & Hl & _).
    destruct (unregister_run k l w Hk) as (w'' & _ & _ & _ & _ & Hun).
    split_and!.
    + by rewrite Hreg.
    + by rewrite Hreg.
    + destruct (list_remove l (listeners w k));
        destruct Hun as [-> _]; auto.
    + by apply Event_init_ok.
    + by apply start_event_run.
    + by apply end_event_run.
Qed.

(** *** Removal *)

(** C9.  Under a valid kind [k], [unregister k l] touches only the list of
    [k].  If [l] occurs in it, the first occurrence, and only that one, is
    removed, later duplicates staying where they are; if that was the only
    occurrence, no later broadcast of kind [k] over the resulting list
    notifies [l].  If [l] does not occur, the call raises the [ValueError]
    of [list.remove], the spec's ListenerNotFound, and the listeners of
    every kind are what they were. *)
Theorem unregister_removes_first k l w :
  _guard_kind k = Ok k ->
  exists w',
    (unregister k l w).1 = w' /\
    heap w' = heap w /\ clock w' = clock w /\ calls w' = calls w /\
    (forall k', k' <> k -> listeners w' k' = listeners w k') /\
    (l ∈ listeners w k ->
       exists before after,
         listeners w k = before ++ l :: after /\
         (l ∉ before) /\
         (unregister k l w).2 = Ok tt /\
         listeners w' k = before ++ after /\
         ((l ∉ after) ->
            forall event w2,
              kind event = k ->
              listeners w2 k = listeners w' k ->
              forall event',
                call_notify l event' ∉ logged w2 (broadcast event w2).1)) /\
    ((l ∉ listeners w k) ->
       (unregister k l w).2 = Raise not_in_list /\
       forall k', listeners w' k' = listeners w k').
Proof.
  intros Hk.
  destruct (unregister_run k l w Hk) as (w' & Hother & Hh & Hc & Hcalls & Hun).
  exists w'.
  destruct (list_remove l (listeners w k)) as [lst'|] eqn:Hrm.
  - destruct Hun as [Hrun Hl]. rewrite Hrun. simpl.
    apply list_remove_Some in Hrm as (before & after & Hls & Hb & ->).
    split_and!; try done.
    + intros _. exists before, after. split_and!; try done.
      intros Ha event w2 Hkind Hsame event' Hin.
      destruct (broadcast event w2) as [w3 r] eqn:Hb2. simpl in Hin.
      apply broadcast_run in Hb2
        as (w0 & notified & rest & _ & Hls2 & _ & Hc2 & _).
      rewrite (logged_app _ _ _ Hc2) in Hin.
      apply elem_of_cons in Hin as [Hin|Hin]; [done|].
      apply list_elem_of_fmap in Hin as (x & [= <- _] & Hx).
      assert (Hmem : l ∈ listeners w2 (kind event)).
      { rewrite Hls2. apply elem_of_app. by left. }
      rewrite Hkind, Hsame, Hl in Hmem.
      apply elem_of_app in Hmem as [?|?]; done.
    + intros Hnot. exfalso. apply Hnot. rewrite Hls.
      apply elem_of_app. right. by left.
  - destruct Hun as [Hrun Hl]. rewrite Hrun. simpl.
    apply list_remove_None in Hrm.
    split_and!; try done.
    intros _. split; [done|]. intros k'.
    destruct (decide (k' = k)) as [->|Hne]; [done | by apply Hother].
Qed.

(** *** mark_event: a failing Start phase *)

(** C2, as amended.  Under a valid kind, when the Start broadcast raises [e]
    (a listener's callback raised it while handling the Start record), the
    guarded body is not run, but the End phase is: [on_exit] was pushed
    before [start_event] was called, so the exit stack calls [end_event]
    once with the triple of [e], and the End record goes to the listeners of
    the kind.  Both records are emitted.  Then [e] propagates, unless a
    listener raises in the End broadcast, in which case that failure does. *)
Theorem mark_event_start_failure_still_ends k (d : option payload) w w1 e :
  _guard_kind k = Ok k ->
  start_event k d w = (w1, Raise e) ->
  let starting := mkEvent k START d None in
  let ending := mkEvent k END d (Some (exc_info e)) in
  (exists l wl, notify l starting wl = (w1, Raise e)) /\
  call_broadcast starting ∈ logged w w1 /\
  exists w2 r2 notified rest,
    end_event k d (Some (exc_info e)) w1 = (w2, r2) /\
    logged w1 w2 =
      call_end_event k d (Some (exc_info e)) :: call_broadcast ending ::
        ((fun l => call_notify l ending) <$> notified) /\
    listeners w1 k = notified ++ rest /\
    (r2 = Ok tt -> rest = []) /\
    forall body : M unit,
      mark_event k d body w =
        (w2, match r2 with Ok _ => Raise e | Raise e' => Raise e' end).
Proof.
  intros Hk Hstart starting ending.
  split; [|split].
  - rewrite start_event_run in Hstart by done.
    apply broadcast_run in Hstart as (w0 & notified & rest & _ & _ & Hr & _).
    destruct Hr as (before & l & wl & _ & _ & Hl). eauto.
  - destruct (start_event_log _ _ _ _ _ Hk Hstart)
      as (notified & rest & _ & _ & -> & _).
    apply elem_of_cons. right. apply elem_of_cons. by left.
  - destruct (end_event k d (Some (exc_info e)) w1) as [w2 r2] eqn:Hend.
    destruct (end_event_log _ _ _ _ _ _ Hk Hend)
      as (notified & rest & Hls & Hall & Hlog & _).
    exists w2, r2, notified, rest. split_and!; try done.
    intros body.
    assert (Hblock : (start_event k d;; body) w = (w1, Raise e)).
    { by rewrite (bind_raise _ _ _ _ _ Hstart). }
    destruct (mark_event_exit _ _ _ _ _ _ Hblock) as (w2' & r2' & Hend' & ->).
    simpl in Hend'. rewrite Hend in Hend'. by simplify_eq.
Qed.

(** *** is_failed *)

(** C5.  On an event that carries a triple, [is_failed] is true exactly when
    the first slot of the triple is [None].  So, under a valid kind, every
    End record that [mark_event] emits on exit (and it emits one) has
    [is_failed] true when the block ended normally and false when it ended
    by an exception: the reverse of what the name says. *)
Theorem is_failed_polarity :
  (forall (ev : Event payload) ty v tb,
     _exc_details ev = Some (ty, v, tb) ->
     is_failed ev = Ok (bool_decide (ty = None)) /\
     (is_failed ev = Ok true <-> ty = None)) /\
  (forall k (d : option payload) (body : M unit) w w1 rb,
     _guard_kind k = Ok k ->
     (start_event k d;; body) w = (w1, rb) ->
     let w2 := (mark_event k d body w).1 in
     let ending := mkEvent k END d (Some (exc_details_of (failure rb))) in
     call_broadcast ending ∈ logged w1 w2 /\
     is_failed ending =
       Ok (match rb with Ok _ => true | Raise _ => false end) /\
     forall c ev,
       c ∈ logged w1 w2 -> event_of_call c = Some ev ->
       is_end ev = true /\
       is_failed ev = Ok (match rb with Ok _ => true | Raise _ => false end)).
Proof.
  split.
  - intros ev ty v tb Hx. unfold is_failed. rewrite Hx. split; [done|].
    case_bool_decide; split; intros; simplify_eq; done.
  - intros k d body w w1 rb Hk Hblock w2 ending.
    destruct (mark_event_exit _ _ _ _ _ _ Hblock) as (w3 & r3 & Hend & Hmark).
    assert (Hw2 : w2 = w3) by (unfold w2; by rewrite Hmark).
    assert (Hw3 : w3 = (end_event k d
      (Some (exc_details_of (failure rb))) w1).1) by (by rewrite Hend).
    assert (Hpol : is_failed ending =
      Ok (match rb with Ok _ => true | Raise _ => false end)).
    { unfold ending. by destruct rb as [[]|e]. }
    split_and!; [|done|].
    + destruct (end_event_log _ _ _ _ _ _ Hk Hend)
        as (notified & rest & _ & _ & Hlog & _).
      rewrite Hw2, Hlog. apply elem_of_cons. right. apply elem_of_cons.
      by left.
    + intros c ev Hc Hev. rewrite Hw2, Hw3 in Hc.
      rewrite (end_event_events _ _ _ _ _ _ Hc Hev). done.
Qed.

(** C10.  On an event built without a triple ([exc_details] left at [None]),
    [is_failed] returns no boolean: it raises the [TypeError] of subscripting
    [None].  Such are all the events [start_event] emits, and all those
    [end_event] emits when its [exc_details] argument is omitted.
    [is_failed] returns a boolean exactly on the events that carry a triple,
    which the End records emitted by [mark_event] on exit all do. *)
Theorem is_failed_undefined_without_triple :
  (forall ev : Event payload,
     _exc_details ev = None ->
     is_failed ev = Raise not_subscriptable /\
     forall b, is_failed ev <> Ok b) /\
  (forall ev : Event payload,
     (exists b, is_failed ev = Ok b) <-> is_Some (_exc_details ev)) /\
  (forall k (d : option payload) w c ev,
     c ∈ logged w (start_event k d w).1 -> event_of_call c = Some ev ->
     _exc_details ev = None /\ is_failed ev = Raise not_subscriptable) /\
  (forall k (d : option payload) w c ev,
     c ∈ logged w (end_event k d None w).1 -> event_of_call c = Some ev ->
     _exc_details ev = None /\ is_failed ev = Raise not_subscriptable) /\
  (forall k (d : option payload) w,
     _guard_kind k = Ok k ->
     call_broadcast (mkEvent k START d None) ∈ logged w (start_event k d w).1 /\
     call_broadcast (mkEvent k END d None)
       ∈ logged w (end_event k d None w).1) /\
  (forall k (d : option payload) (body : M unit) w w1 rb c ev,
     (start_event k d;; body) w = (w1, rb) ->
     c ∈ logged w1 (mark_event k d body w).1 -> event_of_call c = Some ev ->
     exists b, is_failed ev = Ok b).
Proof.
  split_and!.
  - intros ev Hx. unfold is_failed. rewrite Hx. split; [done|]. by intros b.
  - intros ev. unfold is_failed.
    destruct (_exc_details ev) as [[[ty v] tb]|]; split.
    + intros _. by eexists.
    + intros _. by eexists.
    + intros [b [=]].
    + intros [x [=]].
  - intros k d w c ev Hc Hev.
    rewrite (start_event_events _ _ _ _ _ Hc Hev). done.
  - intros k d w c ev Hc Hev.
    rewrite (end_event_events _ _ _ _ _ _ Hc Hev). done.
  - intros k d w Hk. split.
    + destruct (start_event k d w) as [w' r] eqn:Hrun. simpl.
      destruct (start_event_log _ _ _ _ _ Hk Hrun)
        as (notified & rest & _ & _ & -> & _).
      apply elem_of_cons. right. apply elem_of_cons. by left.
    + destruct (end_event k d None w) as [w' r] eqn:Hrun. simpl.
      destruct (end_event_log _ _ _ _ _ _ Hk Hrun)
        as (notified & rest & _ & _ & -> & _).
      apply elem_of_cons. right. apply elem_of_cons. by left.
  - intros k d body w w1 rb c ev Hblock Hc Hev.
    destruct (mark_event_exit _ _ _ _ _ _ Hblock) as (w3 & r3 & Hend & Hmark).
    rewrite Hmark in Hc. simpl in Hc.
    replace w3 with (end_event k d
      (Some (exc_details_of (failure rb))) w1).1 in Hc by (by rewrite Hend).
    rewrite (end_event_events _ _ _ _ _ _ Hc Hev).
    unfold is_failed. simpl.
    destruct (exc_details_of (failure rb)) as [[ty v] tb]. by eexists.
Qed.

(** *** One listener under a kind *)




(** *** A listener registered once, among others *)

Lemma quiet_undisturbing k l (body : M unit) :
  quiet k l body -> undisturbing k l body.
Proof.
  intros Hq w w' r Hrun. destruct (Hq w) as (w'' & Hb & Hrest).
  rewrite Hb in Hrun. by injection Hrun as <- _.
Qed.


Lemma registered_once_same w w' k l :
  listeners w' k = listeners w k ->
  registered_once w k l -> registered_once w' k l.
Proof. unfold registered_once. by intros ->. Qed.

(** In a broadcast that returns normally, a listener registered once is
    notified once, its object untouched before and after. *)
Lemma broadcast_ok_once event l w w' :
  broadcast event w = (w', Ok tt) ->
  registered_once w (kind event) l ->
  exists wa wb,
    notify l event wa = (wb, Ok tt) /\
    heap wa !! l = heap w !! l /\ clock w <= clock wa /\
    heap w' !! l = heap wb !! l /\ clock wb <= clock w' /\
    forall k, listeners w' k = listeners w k.
Proof.
  intros Hb (before & after & Hls & Hbefore & Hafter).
  apply broadcast_run in Hb
    as (w0 & notified & rest & (_ & Hh0 & Hc0 & _) & Hls' & [-> Hd] & _ & Hl & _).
  rewrite app_nil_r in Hls'. rewrite Hls in Hls'. subst notified.
  apply delivered_app_inv in Hd as (wa & Hd1 & Hd2).
  simpl in Hd2. destruct Hd2 as (wb & Hn & Hd3).
  apply delivered_frame in Hd1 as (_ & _ & _ & Ho1 & Hk1).
  apply delivered_frame in Hd3 as (_ & _ & _ & Ho3 & Hk3).
  exists wa, wb. split_and!; try done.
  - rewrite Ho1, Hh0; done.
  - lia.
  - by apply Ho3.
Qed.

Lemma start_event_ok_once k (d : option payload) l w w' :
  _guard_kind k = Ok k ->
  start_event k d w = (w', Ok tt) ->
  registered_once w k l ->
  exists wa wb,
    notify l (mkEvent k START d None) wa = (wb, Ok tt) /\
    heap wa !! l = heap w !! l /\ clock w <= clock wa /\
    heap w' !! l = heap wb !! l /\ clock wb <= clock w' /\
    forall k', listeners w' k' = listeners w k'.
Proof.
  intros Hk Hrun Honce. rewrite start_event_run in Hrun by done.
  by apply (broadcast_ok_once _ l) in Hrun.
Qed.

Lemma end_event_ok_once k (d : option payload) x l w w' :
  _guard_kind k = Ok k ->
  end_event k d x w = (w', Ok tt) ->
  registered_once w k l ->
  exists wa wb,
    notify l (mkEvent k END d x) wa = (wb, Ok tt) /\
    heap wa !! l = heap w !! l /\ clock w <= clock wa /\
    heap w' !! l = heap wb !! l /\ clock wb <= clock w' /\
    forall k', listeners w' k' = listeners w k'.
Proof.
  intros Hk Hrun Honce. rewrite end_event_run in Hrun by done.
  by apply (broadcast_ok_once _ l) in Hrun.
Qed.

(** *** TimingListener *)

Lemma notify_start_timing l event w ts depth dur :
  is_start event = true ->
  heap w !! l = Some (TimingListener ts depth dur) ->
  exists w',
    notify l event w = (w', Ok tt) /\
    _registered w' = _registered w /\
    heap w' !! l =
      Some (TimingListener
              (match ts with None => Some (timer (clock w)) | Some _ => ts end)
              (depth + 1) dur) /\
    clock w' = match ts with None => S (clock w) | Some _ => clock w end.
Proof.
  intros Hs Hl. pose proof (lookup_lt_Some _ _ _ Hl) as Hlt.
  run_all. rewrite Hs. simpl. rewrite Hl.
  destruct ts; simpl; eexists; (split; [reflexivity|]); simpl;
    rewrite list_lookup_insert_eq by done; done.
Qed.

Lemma notify_end_timing l event w ts depth dur :
  is_start event = false -> is_end event = true ->
  heap w !! l = Some (TimingListener ts depth dur) ->
  (depth - 1 = 0 -> is_Some ts)%Z ->
  exists w',
    notify l event w = (w', Ok tt) /\
    _registered w' = _registered w /\
    heap w' !! l =
      Some (TimingListener ts (depth - 1)
              (if bool_decide (depth - 1 = 0)%Z
               then (fun t0 => time_sub (timer (clock w)) t0) <$> ts
               else dur)) /\
    clock w' = if bool_decide (depth - 1 = 0)%Z then S (clock w) else clock w.
Proof.
  intros Hs He Hl Hts. pose proof (lookup_lt_Some _ _ _ Hl) as Hlt.
  run_all. rewrite Hs, He. simpl. rewrite Hl. simpl.
  case_bool_decide as Hd; simpl.
  - destruct (Hts Hd) as [t0 ->]. simpl.
    eexists; (split; [reflexivity|]); simpl.
    rewrite list_insert_insert_eq, list_lookup_insert_eq by done. done.
  - eexists; (split; [reflexivity|]); simpl.
    rewrite list_lookup_insert_eq by done. done.
Qed.





(** One level of [mark_event] that returns normally, seen by a
    [TimingListener] registered once among other listeners; [ca] and [cb]
    are the instants at which it handles the Start and the End record. *)
Lemma mark_event_timing_once
    k (d : option payload) (inner : M unit) l w w3 ts n dur :
  _guard_kind k = Ok k ->
  registered_once w k l ->
  heap w !! l = Some (TimingListener ts n dur) ->
  (forall t w1 w2,
     listeners w1 k = listeners w k ->
     heap w1 !! l = Some (TimingListener (Some t) (n + 1) dur) ->
     inner w1 = (w2, Ok tt) ->
     listeners w2 k = listeners w1 k /\
     heap w2 !! l = heap w1 !! l /\
     clock w1 <= clock w2) ->
  mark_event k d inner w = (w3, Ok tt) ->
  exists w1 w2 ca cb,
    start_event k d w = (w1, Ok tt) /\
    heap w1 !! l =
      Some (TimingListener
              (Some (match ts with None => timer ca | Some t => t end))
              (n + 1) dur) /\
    inner w1 = (w2, Ok tt) /\
    heap w2 !! l = heap w1 !! l /\
    listeners w3 k = listeners w k /\
    heap w3 !! l =
      Some (TimingListener
              (Some (match ts with None => timer ca | Some t => t end)) n
              (if bool_decide (n = 0)%Z
               then Some (time_sub (timer cb)
                            (match ts with None => timer ca | Some t => t end))
               else dur)) /\
    clock w <= ca /\ ca <= clock w1 /\ (ts = None -> ca < clock w1) /\
    clock w1 <= clock w2 /\
    clock w2 <= cb /\ cb <= clock w3 /\ ((n = 0)%Z -> cb < clock w3).
Proof.
  intros Hk Honce Hobj Hinner Hrun.
  apply mark_event_ok_inv in Hrun as (w1 & w2 & Hs & Hin & He).
  destruct (start_event_ok_once _ _ l _ _ Hk Hs Honce)
    as (wa & wb & Hna & Hha & Hca & Hh1 & Hcb & Hl1).
  destruct (notify_start_timing l (mkEvent k START d None) wa ts n dur)
    as (wb' & Hna' & _ & Hhb & Hclkb); [done | congruence |].
  rewrite Hna in Hna'. injection Hna' as <-.
  set (t0 := match ts with None => timer (clock wa) | Some t => t end).
  assert (Hobj1 : heap w1 !! l = Some (TimingListener (Some t0) (n + 1) dur)).
  { rewrite Hh1, Hhb. unfold t0. by destruct ts. }
  destruct (Hinner t0 w1 w2 (Hl1 k) Hobj1 Hin) as (Hl2 & Hh2 & Hc2).
  assert (Honce2 : registered_once w2 k l).
  { apply (registered_once_same w); [|done]. by rewrite Hl2, Hl1. }
  destruct (end_event_ok_once _ _ _ l _ _ Hk He Honce2)
    as (wc & wd & Hnc & Hhc & Hcc & Hh3 & Hcd & Hl3).
  destruct (notify_end_timing l (mkEvent k END d (Some no_exc)) wc
              (Some t0) (n + 1) dur)
    as (wd' & Hnc' & _ & Hhd & Hclkd); [done | done | congruence | done |].
  rewrite Hnc in Hnc'. injection Hnc' as <-.
  replace (n + 1 - 1)%Z with n in * by lia.
  exists w1, w2, (clock wa), (clock wc).
  fold t0. split_and!; try done.
  - by rewrite Hl3, Hl2, Hl1.
  - rewrite Hh3, Hhd. by case_bool_decide.
  - destruct ts; lia.
  - intros ->. lia.
  - case_bool_decide; lia.
  - intros Hn. rewrite bool_decide_true in Hclkd by done. lia.
Qed.



(** *** RecordingListener *)

Lemma notify_recording l event w buf :
  is_start event = true \/ is_end event = true ->
  heap w !! l = Some (RecordingListener buf) ->
  exists w',
    notify l event w = (w', Ok tt) /\
    _registered w' = _registered w /\
    heap w' !! l =
      Some (RecordingListener (buf ++ [(time_time (clock w), event)])) /\
    clock w' = S (clock w).
Proof.
  intros Hse Hl. pose proof (lookup_lt_Some _ _ _ Hl) as Hlt.
  run_all. destruct (is_start event) eqn:Hs; simpl.
  - rewrite Hl. eexists; (split; [reflexivity|]); simpl.
    rewrite list_lookup_insert_eq by done. done.
  - destruct Hse as [?|He]; [done|]. rewrite He. simpl. rewrite Hl.
    eexists; (split; [reflexivity|]); simpl.
    rewrite list_lookup_insert_eq by done. done.
Qed.



(** One invocation that returns normally, seen by a [RecordingListener]
    registered once among other listeners. *)
Lemma mark_event_recording_once
    k (d : option payload) (body : M unit) l w w' buf :
  _guard_kind k = Ok k ->
  registered_once w k l ->
  heap w !! l = Some (RecordingListener buf) ->
  undisturbing k l body ->
  mark_event k d body w = (w', Ok tt) ->
  exists ca cb,
    listeners w' k = listeners w k /\
    heap w' !! l =
      Some (RecordingListener
              (buf ++ [(time_time ca, mkEvent k START d None);
                       (time_time cb, mkEvent k END d (Some no_exc))])) /\
    clock w <= ca /\ ca < cb /\ cb < clock w'.
Proof.
  intros Hk Honce Hobj Hq Hrun.
  apply mark_event_ok_inv in Hrun as (w1 & w2 & Hs & Hbody & He).
  destruct (start_event_ok_once _ _ l _ _ Hk Hs Honce)
    as (wa & wb & Hna & Hha & Hca & Hh1 & Hcb & Hl1).
  destruct (notify_recording l (mkEvent k START d None) wa buf)
    as (wb' & Hna' & _ & Hhb & Hclkb); [by left | congruence |].
  rewrite Hna in Hna'. injection Hna' as <-.
  destruct (Hq _ _ _ Hbody) as (Hl2 & Hh2 & Hc2).
  assert (Honce2 : registered_once w2 k l).
  { apply (registered_once_same w); [|done]. by rewrite Hl2, Hl1. }
  destruct (end_event_ok_once _ _ _ l _ _ Hk He Honce2)
    as (wc & wd & Hnc & Hhc & Hcc & Hh3 & Hcd & Hl3).
  destruct (notify_recording l (mkEvent k END d (Some no_exc)) wc
              (buf ++ [(time_time (clock wa), mkEvent k START d None)]))
    as (wd' & Hnc' & _ & Hhd & Hclkd); [by right | congruence |].
  rewrite Hnc in Hnc'. injection Hnc' as <-.
  exists (clock wa), (clock wc). split_and!.
  - by rewrite Hl3, Hl2, Hl1.
  - rewrite Hh3, Hhd, <- app_assoc. done.
  - done.
  - lia.
  - lia.
Qed.

Lemma mark_events_recording_once
    k (jobs : list (option payload * M unit)) l w w' buf :
  _guard_kind k = Ok k ->
  registered_once w k l ->
  heap w !! l = Some (RecordingListener buf) ->
  Forall (fun job => undisturbing k l job.2) jobs ->
  mark_events k jobs w = (w', Ok tt) ->
  exists entries : list (nat * Event payload),
    listeners w' k = listeners w k /\
    heap w' !! l =
      Some (RecordingListener
              (buf ++ ((fun e => (time_time e.1, e.2)) <$> entries))) /\
    length entries = 2 * length jobs /\
    entries.*2 =
      flat_map (fun job => [mkEvent k START job.1 None;
                            mkEvent k END job.1 (Some no_exc)]) jobs /\
    StronglySorted lt entries.*1 /\
    Forall (fun i => clock w <= i < clock w') entries.*1 /\
    clock w <= clock w'.
Proof.
  intros Hk Honce Hobj Hjobs. revert w buf Honce Hobj.
  induction Hjobs as [|[d body] jobs Hq Hrest IH];
    intros w buf Honce Hobj Hrun; simpl in Hrun.
  - injection Hrun as <-. exists []. simpl. rewrite app_nil_r.
    split_and!; first [done | lia | constructor].
  - simpl in Hq. apply bind_ok_inv in Hrun as (w1 & [] & Hm & Hrun).
    destruct (mark_event_recording_once k d body l w w1 buf Hk Honce Hobj Hq Hm)
      as (ca & cb & Hl1 & Hh1 & Hc1 & Hc2 & Hc3).
    destruct (IH w1 _ (registered_once_same _ _ _ _ Hl1 Honce) Hh1 Hrun)
      as (entries & Hl' & Hh' & Hlen & Hev & Hsort & Hbnd & Hclk).
    exists ((ca, mkEvent k START d None) ::
            (cb, mkEvent k END d (Some no_exc)) :: entries).
    split_and!.
    + by rewrite Hl', Hl1.
    + rewrite Hh'. simpl. by rewrite <- app_assoc.
    + simpl. lia.
    + simpl. do 2 f_equal. exact Hev.
    + simpl.
      apply SSorted_cons;
        [apply SSorted_cons; [exact Hsort|]
        |apply Forall_cons; split; [lia|]];
        (eapply Forall_impl; [exact Hbnd|]; simpl; intros i ?; lia).
    + simpl. apply Forall_cons; split; [lia|].
      apply Forall_cons; split; [lia|].
      eapply Forall_impl; [exact Hbnd|]. simpl. intros i ?. lia.
    + lia.
Qed.


(** ** Further properties of the module *)

(** *** The installers and mark_event under a rejected kind *)

(** Under a kind the guard rejects, both installers raise the guard's error
    from [register]: the listener object has been created, but nothing is
    registered, the guarded body is not run and the timer callback is not
    called. *)
Theorem installers_reject_kind
    k e (callback : time -> M unit) (body : ref -> M unit) w :
  _guard_kind k = Raise e ->
  install_timer k callback body w =
    (with_heap (heap w ++ [TimingListener None 0 None]) w, Raise e) /\
  install_recorder k body w =
    (with_heap (heap w ++ [RecordingListener []]) w, Raise e).
Proof.
  intros Hk. unfold install_timer, install_recorder, register, new.
  split; rewrite bind_run; simpl; rewrite bind_run;
    rewrite (guard_raise_run _ _ _ _ Hk); reflexivity.
Qed.

(** Under a kind the guard rejects, [mark_event] does not run its body and
    notifies nobody: [start_event] raises the guard's error, the exit stack
    still calls [end_event] once, with the triple of that error, which
    raises the guard's error again, and that is the outcome. *)
Theorem mark_event_rejected_kind k e (d : option payload) (body : M unit) w :
  _guard_kind k = Raise e ->
  mark_event k d body w =
    (with_calls (calls w ++ [call_start_event k d;
                             call_end_event k d (Some (exc_info e))]) w,
     Raise e).
Proof.
  intros Hk. rewrite mark_event_run.
  assert (Hs : start_event k d w =
    (with_calls (calls w ++ [call_start_event k d]) w, Raise e)).
  { unfold start_event, Event_init, lift, trace.
    rewrite bind_run, bind_run, Hk. done. }
  rewrite (bind_raise _ _ _ _ _ Hs).
  unfold end_event, Event_init, lift, trace.
  rewrite bind_run, bind_run, Hk. simpl.
  unfold with_calls. simpl. by rewrite <- app_assoc.
Qed.

(** *** register and unregister together *)

(** Registering a listener and then unregistering it, under a valid kind,
    always succeeds and touches only the list of that kind.  If the listener
    was not in the list, the list is what it was.  If it was, it is the
    earlier occurrence that goes: the listener ends up last, behind the
    listeners that used to come after it. *)
Theorem register_then_unregister k l w :
  _guard_kind k = Ok k ->
  exists w1 w2,
    register k l w = (w1, Ok tt) /\
    unregister k l w1 = (w2, Ok tt) /\
    heap w2 = heap w /\ clock w2 = clock w /\ calls w2 = calls w /\
    (forall k', k' <> k -> listeners w2 k' = listeners w k') /\
    ((l ∉ listeners w k) -> listeners w2 k = listeners w k) /\
    (forall before after,
       listeners w k = before ++ l :: after -> (l ∉ before) ->
       listeners w2 k = before ++ after ++ [l]).
Proof.
  intros Hk.
  destruct (register_run k l w Hk) as (w1 & Hreg & Hl1 & Ho1 & Hh1 & Hc1 & Hcs1).
  destruct (unregister_run k l w1 Hk) as (w2 & Ho2 & Hh2 & Hc2 & Hcs2 & Hun).
  assert (Hin : l ∈ listeners w1 k).
  { rewrite Hl1. apply elem_of_app. right. by left. }
  destruct (list_remove l (listeners w1 k)) as [lst'|] eqn:Hrm;
    [|by apply list_remove_None in Hrm].
  destruct Hun as [Hun Hl2].
  exists w1, w2. split_and!; try congruence.
  - intros k' Hk'. rewrite Ho2, Ho1; done.
  - intros Hfresh. rewrite Hl1, list_remove_snoc in Hrm by done. congruence.
  - intros before after Hls Hb.
    rewrite Hl1, Hls, <- app_assoc in Hrm. simpl in Hrm.
    rewrite list_remove_first in Hrm by done. congruence.
Qed.

(** *** The defaultdict *)

(** Looking up a kind that is not a key of [_registered] binds it to an empty
    list: after a [broadcast] of such a kind, and after an [unregister] under
    such a (valid) kind, which raises, the kind is a key.  A kind the guard
    rejects never becomes a key through [register] or [unregister]. *)
Theorem lookup_creates_key k w :
  _registered w !! k = None ->
  (forall event,
     kind event = k ->
     broadcast event w =
       (with_registered (<[k := []]> (_registered w))
          (with_calls (calls w ++ [call_broadcast event]) w), Ok tt)) /\
  (_guard_kind k = Ok k ->
   forall l,
     unregister k l w =
       (with_registered (<[k := []]> (_registered w)) w,
        Raise not_in_list)) /\
  (forall e, _guard_kind k = Raise e ->
   forall l,
     _registered (register k l w).1 = _registered w /\
     _registered (unregister k l w).1 = _registered w).
Proof.
  intros Hnone. split_and!.
  - intros event <-. unfold broadcast, trace, _registered_getitem.
    rewrite bind_run, bind_run. simpl. rewrite Hnone. simpl.
    unfold listeners. simpl. rewrite lookup_insert_eq. done.
  - intros Hk l. unfold unregister, lift, _registered_getitem.
    rewrite bind_run, Hk, bind_run, Hnone. done.
  - intros e Hk l. unfold register, unregister.
    rewrite !(guard_raise_run _ _ _ _ Hk). done.
Qed.

(** *** install_recorder *)

(** [install_recorder] under a valid kind, the listener still registered when
    the body ends: on both exit paths the first occurrence of the listener
    is taken out of the list, nothing else changes (the buffer stays as the
    body left it and can still be read), and the outcome of the body, normal
    or a failure, is the outcome of the whole.  If the body left the
    registrations of the kind alone, the list is what it was before. *)
Theorem install_recorder_exit k (body : ref -> M unit) w w1 w2 rb :
  _guard_kind k = Ok k ->
  let l := length (heap w) in
  register k l (with_heap (heap w ++ [RecordingListener []]) w) = (w1, Ok tt) ->
  body l w1 = (w2, rb) ->
  l ∈ listeners w2 k ->
  exists w3 before after,
    install_recorder k body w = (w3, rb) /\
    listeners w1 k = listeners w k ++ [l] /\
    listeners w2 k = before ++ l :: after /\
    (l ∉ before) /\
    listeners w3 k = before ++ after /\
    (forall k', k' <> k -> listeners w3 k' = listeners w2 k') /\
    heap w3 = heap w2 /\ clock w3 = clock w2 /\ calls w3 = calls w2 /\
    (listeners w2 k = listeners w1 k -> (l ∉ listeners w k) ->
       listeners w3 k = listeners w k).
Proof.
  intros Hk l Hreg Hbody Hin.
  destruct (register_run k l (with_heap (heap w ++ [RecordingListener []]) w) Hk)
    as (w1' & Hreg' & Hl1 & _).
  rewrite Hreg in Hreg'. injection Hreg' as <-.
  change (listeners (with_heap _ w) k) with (listeners w k) in Hl1.
  destruct (scoped_unregister k l (body l) w1 w2 rb Hk Hbody)
    as (w3 & Hh & Hc & Hcs & Ho & Hun).
  destruct (list_remove l (listeners w2 k)) as [lst'|] eqn:Hrm;
    [|by apply list_remove_None in Hrm].
  destruct Hun as [Hrun Hl3]. pose proof Hrm as Hrm'.
  apply list_remove_Some in Hrm' as (before & after & Hls & Hb & ->).
  exists w3, before, after. split_and!; try done.
  - unfold install_recorder. rewrite bind_run, new_run.
    fold l. rewrite (bind_ok _ _ _ _ _ Hreg). exact Hrun.
  - intros Hsame Hfresh. rewrite Hsame, Hl1 in Hrm.
    rewrite list_remove_snoc in Hrm by done. congruence.
Qed.

(** When the body itself has unregistered the listener, the [unregister] of
    the [finally] clause fails: both installers then raise the [ValueError]
    of [list.remove], whatever the outcome of the body was, and the timer
    callback is not called. *)
Theorem installers_listener_already_removed
    k (callback : time -> M unit) (body : ref -> M unit) (obj : Listener)
    w w1 w2 rb :
  _guard_kind k = Ok k ->
  let l := length (heap w) in
  register k l (with_heap (heap w ++ [obj]) w) = (w1, Ok tt) ->
  body l w1 = (w2, rb) ->
  (l ∉ listeners w2 k) ->
  exists w3,
    heap w3 = heap w2 /\ clock w3 = clock w2 /\ calls w3 = calls w2 /\
    (forall k', listeners w3 k' = listeners w2 k') /\
    (obj = TimingListener None 0 None ->
       install_timer k callback body w = (w3, Raise not_in_list)) /\
    (obj = RecordingListener [] ->
       install_recorder k body w = (w3, Raise not_in_list)).
Proof.
  intros Hk l Hreg Hbody Hout.
  destruct (scoped_unregister k l (body l) w1 w2 rb Hk Hbody)
    as (w3 & Hh & Hc & Hcs & Ho & Hun).
  apply list_remove_None in Hout. rewrite Hout in Hun.
  destruct Hun as [Hrun Hl3].
  exists w3. split_and!; try done.
  - intros k'. destruct (decide (k' = k)) as [->|Hne]; [done | by apply Ho].
  - intros ->. unfold install_timer. rewrite bind_run, new_run.
    fold l. rewrite (bind_ok _ _ _ _ _ Hreg).
    by rewrite (bind_raise _ _ _ _ _ Hrun).
  - intros ->. unfold install_recorder. rewrite bind_run, new_run.
    fold l. rewrite (bind_ok _ _ _ _ _ Hreg). exact Hrun.
Qed.

(** *** RecordingListener: an append-only log *)

Lemma is_start_or_end event : is_start event = true \/ is_end event = true.
Proof. unfold is_start, is_end. destruct (_status event); auto. Qed.

Lemma delivered_recording event (ls : list ref) l w w' buf :
  delivered event ls w w' ->
  heap w !! l = Some (RecordingListener buf) ->
  exists stamps : list nat,
    heap w' !! l =
      Some (RecordingListener
              (buf ++ ((fun i => (time_time i, event)) <$> stamps))) /\
    length stamps = length (filter (fun x => x = l) ls) /\
    Forall (fun i => clock w <= i < clock w') stamps.
Proof.
  revert w buf. induction ls as [|x ls IH]; simpl; intros w buf.
  - intros -> Hobj. exists []. simpl. rewrite app_nil_r. done.
  - intros (w1 & Hx & Hrest) Hobj.
    pose proof (delivered_frame _ _ _ _ Hrest) as (_ & _ & _ & _ & Hclk).
    destruct (decide (x = l)) as [->|Hne].
    + destruct (notify_recording l event w buf (is_start_or_end event) Hobj)
        as (w1' & Hn & _ & Hh1 & Hc1).
      rewrite Hx in Hn. injection Hn as <-.
      destruct (IH _ _ Hrest Hh1) as (stamps & Hh & Hlen & Hbnd).
      exists (clock w :: stamps). split_and!.
      * rewrite Hh, <- app_assoc. done.
      * rewrite filter_cons_True by done. simpl. by rewrite Hlen.
      * apply Forall_cons. split; [lia|].
        eapply Forall_impl; [exact Hbnd|]. simpl. intros i ?. lia.
    + apply notify_frame in Hx as (_ & _ & _ & Ho & Hc1).
      destruct (IH w1 buf Hrest) as (stamps & Hh & Hlen & Hbnd).
      { rewrite Ho by done. done. }
      exists stamps. split_and!; [done | |].
      * rewrite filter_cons_False by done. done.
      * eapply Forall_impl; [exact Hbnd|]. simpl. intros i ?. lia.
Qed.

(** A broadcast only ever appends to the buffer of a [RecordingListener]:
    whatever the outcome, the buffer afterwards is the old buffer followed
    by entries for this event, at most one per occurrence of the listener
    under the event's kind, and exactly one per occurrence when the
    broadcast returns normally; a recorder itself never raises. *)
Theorem recording_listener_append_only event l w buf :
  heap w !! l = Some (RecordingListener buf) ->
  (forall w0, heap w0 !! l = Some (RecordingListener buf) ->
     (notify l event w0).2 = Ok tt) /\
  exists stamps : list nat,
    heap (broadcast event w).1 !! l =
      Some (RecordingListener
              (buf ++ ((fun i => (time_time i, event)) <$> stamps))) /\
    length stamps <=
      length (filter (fun x => x = l) (listeners w (kind event))) /\
    ((broadcast event w).2 = Ok tt ->
       length stamps =
         length (filter (fun x => x = l) (listeners w (kind event)))) /\
    Forall (fun i => clock w <= i < clock (broadcast event w).1) stamps.
Proof.
  intros Hobj. split.
  { intros w0 Hobj0.
    destruct (notify_recording l event w0 buf (is_start_or_end event) Hobj0)
      as (w1 & -> & _). done. }
  destruct (broadcast event w) as [w' r] eqn:Hrun. simpl.
  apply broadcast_run in Hrun
    as (w0 & notified & rest & (_ & Hh0 & Hc0 & _) & Hls & Hr & _).
  rewrite <- Hh0 in Hobj. rewrite Hls, filter_app, length_app, <- Hc0.
  destruct r as [[]|e].
  - destruct Hr as [-> Hd].
    destruct (delivered_recording _ _ _ _ _ _ Hd Hobj)
      as (stamps & Hh & Hlen & Hbnd).
    exists stamps. simpl. split_and!; [done | lia | lia | done].
  - destruct Hr as (before & x & w1 & -> & Hd & Hx).
    destruct (delivered_recording _ _ _ _ _ _ Hd Hobj)
      as (stamps & Hh & Hlen & Hbnd).
    assert (Hne : x <> l).
    { intros ->.
      destruct (notify_recording l event w1 _ (is_start_or_end event) Hh)
        as (w1' & Hn & _). congruence. }
    apply notify_frame in Hx as (_ & _ & _ & Ho & Hc1).
    exists stamps. split_and!.
    + rewrite Ho by done. done.
    + rewrite filter_app, length_app. lia.
    + done.
    + eapply Forall_impl; [exact Hbnd|]. simpl. intros i ?. lia.
Qed.

(** *** TimingListener: what it keeps *)

(** A [TimingListener] that has no timestamp only while its depth is not
    positive (as is one fresh from its constructor) never raises, whatever
    the order of the Start and End records it is sent; and it stays such a
    listener.  Its timestamp, once set, never changes, and its duration,
    once set, is never taken away. *)
Theorem timing_listener_never_raises l event w ts depth dur :
  heap w !! l = Some (TimingListener ts depth dur) ->
  (ts = None -> (depth <= 0)%Z) ->
  exists w' ts' dur',
    notify l event w = (w', Ok tt) /\
    heap w' !! l =
      Some (TimingListener ts'
              (if is_start event then depth + 1 else depth - 1) dur') /\
    (ts' = None ->
       ((if is_start event then depth + 1 else depth - 1) <= 0)%Z) /\
    (forall t, ts = Some t -> ts' = Some t) /\
    (is_Some dur -> is_Some dur') /\
    (ts' = None -> dur' = dur).
Proof.
  intros Hobj Hinv. destruct (is_start event) eqn:Hs.
  - destruct (notify_start_timing l event w ts depth dur Hs Hobj)
      as (w' & Hn & _ & Hh & _).
    eexists w', _, dur. split; [done|]. split; [exact Hh|].
    split_and!; try done; by destruct ts.
  - destruct (is_start_or_end event) as [?|He]; [congruence|].
    destruct (notify_end_timing l event w ts depth dur Hs He Hobj)
      as (w' & Hn & _ & Hh & _).
    { intros Hd. destruct ts; [done|]. specialize (Hinv eq_refl). lia. }
    eexists w', ts, _. split; [done|]. split; [exact Hh|].
    split_and!; try done.
    + intros ->. specialize (Hinv eq_refl). lia.
    + intros Hsome. case_bool_decide as Hd; [|done].
      destruct ts; [done|]. specialize (Hinv eq_refl). lia.
    + intros ->. specialize (Hinv eq_refl).
      rewrite bool_decide_false by lia. done.
Qed.


(** *** The installers around mark_event *)

Lemma register_fresh k (obj : Listener) w w1 :
  _guard_kind k = Ok k ->
  (length (heap w) ∉ listeners w k) ->
  register k (length (heap w)) (with_heap (heap w ++ [obj]) w) = (w1, Ok tt) ->
  listeners w1 k = listeners w k ++ [length (heap w)] /\
  registered_once w1 k (length (heap w)) /\
  heap w1 !! length (heap w) = Some obj /\
  clock w1 = clock w.
Proof.
  intros Hk Hfresh Hreg.
  destruct (register_run k (length (heap w))
              (with_heap (heap w ++ [obj]) w) Hk)
    as (w1' & Hreg' & Hl1 & _ & Hh1 & Hc1 & _).
  rewrite Hreg in Hreg'. injection Hreg' as <-.
  change (listeners (with_heap _ w) k) with (listeners w k) in Hl1.
  split_and!; [done | | |done].
  - exists (listeners w k), []. split_and!; [done | done |].
    apply not_elem_of_nil.
  - rewrite Hh1. simpl. by apply list_lookup_middle.
Qed.

(** [with install_timer(kind, callback): with mark_event(kind, data): body]
    under a valid kind, the inner invocation returning normally and the body
    leaving the listener alone: the listener is removed, and what remains is
    one call of the callback, on the timer reading taken at the End record
    minus the one taken at the Start record, the second taken after the
    first. *)
Theorem install_timer_measures
    k (callback : time -> M unit) (d : option payload) (body : M unit)
    w w1 w2 :
  _guard_kind k = Ok k ->
  let l := length (heap w) in
  (l ∉ listeners w k) ->
  undisturbing k l body ->
  register k l (with_heap (heap w ++ [TimingListener None 0 None]) w)
    = (w1, Ok tt) ->
  mark_event k d body w1 = (w2, Ok tt) ->
  exists w3 ca cb,
    install_timer k callback (fun _ => mark_event k d body) w =
      callback (time_sub (timer cb) (timer ca))
        (with_calls
           (calls w3 ++ [call_callback (time_sub (timer cb) (timer ca))])
           w3) /\
    listeners w3 k = listeners w k /\
    heap w3 = heap w2 /\ clock w3 = clock w2 /\ calls w3 = calls w2 /\
    clock w <= ca /\ ca < cb /\ cb < clock w2.
Proof.
  intros Hk l Hfresh Hq Hreg Hrun.
  destruct (register_fresh k _ w w1 Hk Hfresh Hreg)
    as (Hl1 & Honce & Hobj & Hc1).
  destruct (mark_event_timing_once k d body l w1 w2 None 0 None
              Hk Honce Hobj)
    as (wa & wb & ca & cb & _ & _ & _ & _ & Hl2 & Hh2 & Hca & _ & Hca'
        & Hab & Hcb & _ & Hcb'); [|done|].
  { intros t wa wb _ _ Hin. by apply Hq in Hin. }
  destruct (scoped_unregister k l (mark_event k d body) w1 w2 (Ok tt) Hk Hrun)
    as (w3 & Hh3 & Hc3 & Hcs3 & _ & Hun).
  rewrite Hl2, Hl1, list_remove_snoc in Hun by done.
  destruct Hun as [Hfin Hl3].
  exists w3, ca, cb. split_and!; try done.
  - unfold install_timer. rewrite bind_run, new_run. fold l.
    rewrite (bind_ok _ _ _ _ _ Hreg), (bind_ok _ _ _ _ _ Hfin).
    unfold duration, deref. rewrite !bind_run, Hh3, Hh2. done.
  - lia.
  - specialize (Hca' eq_refl). lia.
  - by apply Hcb'.
Qed.

(** [with install_recorder(kind) as rec:] around invocations of [mark_event]
    of that (valid) kind, each returning normally and its body leaving the
    recorder alone: the scope returns normally, the recorder is no longer
    registered, and its buffer, still readable, holds exactly the Start and
    then the End record of each invocation, in call order. *)
Theorem install_recorder_records
    k (jobs : list (option payload * M unit)) w w1 w2 :
  _guard_kind k = Ok k ->
  let l := length (heap w) in
  (l ∉ listeners w k) ->
  Forall (fun job => undisturbing k l job.2) jobs ->
  register k l (with_heap (heap w ++ [RecordingListener []]) w)
    = (w1, Ok tt) ->
  mark_events k jobs w1 = (w2, Ok tt) ->
  exists w3 (entries : list (nat * Event payload)),
    install_recorder k (fun _ => mark_events k jobs) w = (w3, Ok tt) /\
    listeners w3 k = listeners w k /\
    heap w3 !! l =
      Some (RecordingListener
              ((fun e => (time_time e.1, e.2)) <$> entries)) /\
    length entries = 2 * length jobs /\
    entries.*2 =
      flat_map (fun job => [mkEvent k START job.1 None;
                            mkEvent k END job.1 (Some no_exc)]) jobs /\
    StronglySorted lt entries.*1.
Proof.
  intros Hk l Hfresh Hjobs Hreg Hrun.
  destruct (register_fresh k _ w w1 Hk Hfresh Hreg)
    as (Hl1 & Honce & Hobj & Hc1).
  destruct (mark_events_recording_once k jobs l w1 w2 [] Hk Honce Hobj
              Hjobs Hrun)
    as (entries & Hl2 & Hh2 & Hlen & Hev & Hsort & _).
  destruct (scoped_unregister k l (mark_events k jobs) w1 w2 (Ok tt) Hk Hrun)
    as (w3 & Hh3 & Hc3 & Hcs3 & _ & Hun).
  rewrite Hl2, Hl1, list_remove_snoc in Hun by done.
  destruct Hun as [Hfin Hl3].
  exists w3, entries. split_and!; try done.
  - unfold install_recorder. rewrite bind_run, new_run. fold l.
    by rewrite (bind_ok _ _ _ _ _ Hreg).
  - rewrite Hh3. exact Hh2.
Qed.

(** *** mark_event as a pairing *)

(** [with mark_event(kind, data): body] is the explicit pairing: the Start
    phase, then the body; on normal completion [end_event] with the triple
    [(None, None, None)], whose outcome is the outcome; on a failure [e] of
    the Start phase or of the body, [end_event] with the triple of [e] and
    then [e] again, unless [end_event] raised. *)
Theorem mark_event_as_pairing k (d : option payload) (body : M unit) w :
  mark_event k d body w =
  match (start_event k d;; body) w with
  | (w1, Ok _) => end_event k d (Some no_exc) w1
  | (w1, Raise e) => (end_event k d (Some (exc_info e));; raise e) w1
  end.
Proof.
  rewrite mark_event_run.
  destruct ((start_event k d;; body) w) as [w1 [[]|e]].
  - by destruct (end_event k d (Some no_exc) w1) as [w2 [[]|e']].
  - rewrite bind_run.
    by destruct (end_event k d (Some (exc_info e)) w1) as [w2 [[]|e']].
Qed.

End BusFacts.

(** ** The properties at work on the concrete bus *)

Import Example.



(** A listener that raises in [on_start]: the outcome is its failure,
    whatever the body. *)
Lemma mark_event_start_failure_still_ends_witness :
  (mark_event "phase" None pass start_fails).2 = Raise boom /\
  mark_event "phase" None failing start_fails =
    mark_event "phase" None pass start_fails.
Proof.
  destruct (mark_event_start_failure_still_ends "phase" None start_fails
              (start_event "phase" None start_fails).1 boom)
    as (_ & _ & w2 & r2 & notified & rest & Hend & _ & _ & _ & Hmark).
  - vm_compute. reflexivity.
  - vm_compute. reflexivity.
  - vm_compute in Hend. injection Hend as <- <-.
    rewrite (Hmark pass), (Hmark failing). split; reflexivity.
Defined.

(** A listener that raises in [on_start]: the log shows the Start record and
    then the call of [end_event] and the End record. *)
Lemma mark_event_start_failure_emits_both :
  _guard_kind "phase" = Ok "phase" /\
  (start_event "phase" None start_fails).2 = Raise boom /\
  calls (mark_event "phase" None pass start_fails).1 =
    [call_start_event "phase" None;
     call_broadcast (phase_start None);
     call_notify 0 (phase_start None);
     call_end_event "phase" None (Some (exc_info boom));
     call_broadcast (phase_end None (exc_info boom));
     call_notify 0 (phase_end None (exc_info boom))] /\
  ~ List.filter is_call_end_event
      (calls (mark_event "phase" None pass start_fails).1) = [].
Proof.
  split_and!; try (vm_compute; reflexivity).
  vm_compute. discriminate.
Qed.

(** A timer around one [mark_event]: the scope and the callback complete. *)
Lemma install_timer_exit_witness :
  (install_timer "phase" ignore (fun _ => mark_event "phase" None pass)
     fresh).2 = Ok tt.
Proof.
  destruct (install_timer_exit "phase" ignore
              (fun _ => mark_event "phase" None pass) fresh
              (new (TimingListener None 0 None) fresh).1 0
              (register "phase" 0 (new (TimingListener None 0 None) fresh).1).1
              (mark_event "phase" None pass
                 (register "phase" 0
                    (new (TimingListener None 0 None) fresh).1).1).1
              (Ok tt))
    as (w3 & before & after & _ & _ & _ & _ & _ & _ & _ & _ & Hrun).
  - vm_compute. reflexivity.
  - vm_compute. reflexivity.
  - vm_compute. reflexivity.
  - vm_compute. reflexivity.
  - apply (bool_decide_unpack _). vm_compute. exact I.
  - change (heap _ !! 0)
      with (Some (TimingListener (custom := probe) (payload := Z)
                    (Some 0%Z) 0 (Some 1%Z))) in Hrun.
    rewrite Hrun. reflexivity.
Defined.

(** A timer around [pass]: the scope ends normally, yet the outcome is the
    [AttributeError] of [duration] and the callback is never called. *)
Lemma install_timer_pass_raises_witness :
  (pass (register "phase" 0
           (new (TimingListener None 0 None) fresh).1).1).2 = Ok tt /\
  (install_timer "phase" ignore (fun _ => pass) fresh).2 = Raise no_duration /\
  List.filter is_call_callback
    (calls (install_timer "phase" ignore (fun _ => pass) fresh).1) = [].
Proof.
  destruct (install_timer_pass_raises
              (time := Z) (payload := Z) (custom := probe) "phase" fresh)
    as (w' & Hrun & _ & _ & Hcalls & _).
  - vm_compute. reflexivity.
  - unfold pass. rewrite (Hrun ignore). simpl. rewrite Hcalls.
    split_and!; reflexivity.
Defined.



(** The guard on a free kind, a built-in kind and a reserved unknown kind. *)
Lemma guard_kind_spec_witness :
  _guard_kind "phase" = Ok "phase" /\
  (_guard_kind "numba:compile" = Ok "numba:compile" <->
   "numba:compile" ∈ _builtin_kinds) /\
  register "numba:jit" 0 two_probes =
    (two_probes, Raise (ValueError "numba:jit is not a valid event kind")).
Proof.
  destruct (guard_kind_spec (time := Z) (payload := Z) (custom := probe)
              "phase") as (Hfree & _).
  destruct (guard_kind_spec (time := Z) (payload := Z) (custom := probe)
              "numba:compile") as (_ & Hbuiltin & _).
  destruct (guard_kind_spec (time := Z) (payload := Z) (custom := probe)
              "numba:jit") as (_ & _ & Hbad & _).
  split_and!.
  - apply Hfree. reflexivity.
  - apply Hbuiltin. reflexivity.
  - destruct (Hbad (ValueError "numba:jit is not a valid event kind"))
      as (_ & Hsites); [vm_compute; reflexivity|].
    apply (Hsites 0 two_probes START None None).
Defined.


(** Removing a listener that is not registered, and one that is: only its
    first occurrence goes. *)
Lemma unregister_removes_first_witness :
  (unregister "phase" 2 two_probes).2 = Raise not_in_list /\
  (unregister "phase" 0 two_probes).2 = Ok tt /\
  listeners (unregister "phase" 0 two_probes).1 "phase" = [1; 0] /\
  (unregister "phase" 1 two_probes).2 = Ok tt /\
  listeners (unregister "phase" 1 two_probes).1 "phase" = [0; 0].
Proof.
  assert (Hk : _guard_kind "phase" = Ok "phase") by (vm_compute; reflexivity).
  destruct (unregister_removes_first "phase" 2 two_probes Hk)
    as (w2 & _ & _ & _ & _ & _ & _ & Habsent).
  destruct (unregister_removes_first "phase" 0 two_probes Hk)
    as (w0 & Hw0 & _ & _ & _ & _ & Hfirst & _).
  destruct (unregister_removes_first "phase" 1 two_probes Hk)
    as (w1 & Hw1 & _ & _ & _ & _ & Hmiddle & _).
  split; [|split; [|split; [|split]]].
  - apply Habsent. apply (bool_decide_unpack _). vm_compute. exact I.
  - destruct Hfirst as (before & after & _ & _ & Hok & _); [|exact Hok].
    apply (bool_decide_unpack _). vm_compute. exact I.
  - vm_compute. reflexivity.
  - destruct Hmiddle as (before & after & _ & _ & Hok & _); [|exact Hok].
    apply (bool_decide_unpack _). vm_compute. exact I.
  - vm_compute. reflexivity.
Defined.

(** The End records of a normal and of a failing invocation. *)
Lemma is_failed_polarity_witness :
  is_failed (phase_end None no_exc) = Ok true /\
  is_failed (phase_end None (exc_info oops)) = Ok false.
Proof.
  destruct (is_failed_polarity (time := Z) (payload := Z) (custom := probe))
    as (_ & Hmark).
  destruct (Hmark "phase" None pass timed
              (start_event "phase" None timed).1 (Ok tt))
    as (_ & Hnormal & _); [vm_compute; reflexivity..|].
  destruct (Hmark "phase" None failing timed
              (start_event "phase" None timed).1 (Raise oops))
    as (_ & Hfailed & _); [vm_compute; reflexivity..|].
  split; [exact Hnormal | exact Hfailed].
Defined.

(** The Start record of an invocation. *)
Lemma is_failed_undefined_without_triple_witness :
  is_failed (phase_start None) = Raise not_subscriptable.
Proof.
  destruct (is_failed_undefined_without_triple
              (time := Z) (payload := Z) (custom := probe))
    as (_ & _ & Hstart & _ & Hemit & _).
  destruct (Hemit "phase" None timed) as (Hin & _); [vm_compute; reflexivity|].
  apply (Hstart "phase" None timed _ _ Hin). reflexivity.
Defined.

Lemma quiet_pass k l : quiet k l pass.
Proof. intros w. exists w. split_and!; reflexivity. Qed.




(** *** Further properties on the concrete bus *)

(** A reserved kind that is not built in. *)
Lemma installers_reject_kind_witness :
  (install_timer "numba:jit" ignore (fun _ => pass) fresh).2 =
    Raise (ValueError "numba:jit is not a valid event kind") /\
  listeners (install_recorder "numba:jit" (fun _ => pass) fresh).1
    "numba:jit" = [].
Proof.
  destruct (installers_reject_kind "numba:jit"
              (ValueError "numba:jit is not a valid event kind")
              ignore (fun _ => pass) fresh) as [Ht Hr].
  - vm_compute. reflexivity.
  - rewrite Ht, Hr. split; reflexivity.
Defined.

Lemma mark_event_rejected_kind_witness :
  (mark_event "numba:jit" None failing two_probes).2 =
    Raise (ValueError "numba:jit is not a valid event kind").
Proof.
  rewrite (mark_event_rejected_kind "numba:jit"
             (ValueError "numba:jit is not a valid event kind")).
  - reflexivity.
  - vm_compute. reflexivity.
Defined.

(** The listener that was first in the list ends up last. *)
Lemma register_then_unregister_witness :
  listeners (unregister "phase" 0 (register "phase" 0 two_probes).1).1 "phase"
    = [1; 0; 0].
Proof.
  destruct (register_then_unregister "phase" 0 two_probes)
    as (w1 & w2 & Hreg & Hun & _ & _ & _ & _ & _ & Hmove).
  - vm_compute. reflexivity.
  - rewrite Hreg. simpl. rewrite Hun. simpl.
    apply (Hmove [] [1; 0]); [vm_compute; reflexivity|].
    apply not_elem_of_nil.
Defined.

Lemma lookup_creates_key_witness :
  _registered (broadcast (phase_start None) fresh).1 !! "phase" = Some [].
Proof.
  destruct (lookup_creates_key "phase" fresh) as (Hb & _).
  - vm_compute. reflexivity.
  - rewrite (Hb (phase_start None)); [|reflexivity]. vm_compute. reflexivity.
Defined.

(** A recorder around an invocation whose body raises. *)
Lemma install_recorder_exit_witness :
  (install_recorder "phase" (fun _ => mark_event "phase" None failing)
     fresh).2 = Raise oops.
Proof.
  destruct (install_recorder_exit "phase"
              (fun _ => mark_event "phase" None failing) fresh
              (register "phase" 0
                 (with_heap (heap fresh ++ [RecordingListener []]) fresh)).1
              (mark_event "phase" None failing
                 (register "phase" 0
                    (with_heap (heap fresh ++ [RecordingListener []])
                       fresh)).1).1
              (Raise oops))
    as (w3 & before & after & Hrun & _).
  - vm_compute. reflexivity.
  - vm_compute. reflexivity.
  - vm_compute. reflexivity.
  - apply (bool_decide_unpack _). vm_compute. exact I.
  - rewrite Hrun. reflexivity.
Defined.

(** A body that unregisters the recorder it was given. *)
Lemma installers_listener_already_removed_witness :
  (install_recorder "phase" (fun l => unregister "phase" l) fresh).2 =
    Raise not_in_list.
Proof.
  destruct (installers_listener_already_removed "phase" ignore
              (fun l => unregister "phase" l) (RecordingListener []) fresh
              (register "phase" 0
                 (with_heap (heap fresh ++ [RecordingListener []]) fresh)).1
              (unregister "phase" 0
                 (register "phase" 0
                    (with_heap (heap fresh ++ [RecordingListener []])
                       fresh)).1).1
              (Ok tt))
    as (w3 & _ & _ & _ & _ & _ & Hrec).
  - vm_compute. reflexivity.
  - vm_compute. reflexivity.
  - vm_compute. reflexivity.
  - apply (bool_decide_unpack _). vm_compute. exact I.
  - rewrite Hrec; reflexivity.
Defined.

Lemma recording_listener_append_only_witness :
  exists stamps : list nat,
    heap (broadcast (phase_start None) recorded_among).1 !! 1 =
      Some (RecordingListener
              ((fun i => (Z.of_nat i, phase_start None)) <$> stamps)) /\
    length stamps = 1.
Proof.
  destruct (recording_listener_append_only (phase_start None) 1
              recorded_among [])
    as (_ & stamps & Hh & _ & Hlen & _).
  - vm_compute. reflexivity.
  - exists stamps. split; [exact Hh|]. rewrite Hlen; vm_compute; reflexivity.
Defined.

(** An End record sent to a fresh timer, before any Start. *)
Lemma timing_listener_never_raises_witness :
  (notify 0 (phase_end None no_exc) timed).2 = Ok tt.
Proof.
  destruct (timing_listener_never_raises 0 (phase_end None no_exc) timed
              None 0 None)
    as (w' & ts' & dur' & Hn & _).
  - vm_compute. reflexivity.
  - intros _. reflexivity.
  - rewrite Hn. reflexivity.
Defined.


Lemma install_timer_measures_witness :
  (install_timer "phase" ignore (fun _ => mark_event "phase" None pass)
     two_probes).2 = Ok tt.
Proof.
  destruct (install_timer_measures "phase" ignore None pass two_probes
              (register "phase" 2
                 (with_heap (heap two_probes ++ [TimingListener None 0 None])
                    two_probes)).1
              (mark_event "phase" None pass
                 (register "phase" 2
                    (with_heap
                       (heap two_probes ++ [TimingListener None 0 None])
                       two_probes)).1).1)
    as (w3 & ca & cb & Hrun & _).
  - vm_compute. reflexivity.
  - apply (bool_decide_unpack _). vm_compute. exact I.
  - apply quiet_undisturbing, quiet_pass.
  - vm_compute. reflexivity.
  - vm_compute. reflexivity.
  - change (length (heap two_probes)) with 2 in Hrun.
    rewrite Hrun. reflexivity.
Defined.

Lemma install_recorder_records_witness :
  exists w3 entries,
    install_recorder "phase"
      (fun _ => mark_events "phase" [(None, pass); (Some 5%Z, pass)])
      two_probes = (w3, Ok tt) /\
    listeners w3 "phase" = [0; 1; 0] /\
    length entries = 4 /\
    heap w3 !! 2 =
      Some (RecordingListener
              ((fun e : nat * Event Z => (Z.of_nat e.1, e.2)) <$> entries)).
Proof.
  destruct (install_recorder_records "phase"
              [(None, pass); (Some 5%Z, pass)] two_probes
              (register "phase" 2
                 (with_heap (heap two_probes ++ [RecordingListener []])
                    two_probes)).1
              (mark_events "phase" [(None, pass); (Some 5%Z, pass)]
                 (register "phase" 2
                    (with_heap (heap two_probes ++ [RecordingListener []])
                       two_probes)).1).1)
    as (w3 & entries & Hrun & Hl & Hh & Hlen & _).
  - vm_compute. reflexivity.
  - apply (bool_decide_unpack _). vm_compute. exact I.
  - apply Forall_cons; split; [apply quiet_undisturbing, quiet_pass|].
    apply Forall_cons; split; [apply quiet_undisturbing, quiet_pass|].
    constructor.
  - vm_compute. reflexivity.
  - vm_compute. reflexivity.
  - exists w3, entries. split_and!; [exact Hrun | exact Hl | exact Hlen | exact Hh].
Defined.
